(** * ApiController: the webview <-> git-service message bridge

    A shallow embedding of [src/server/apiController.ts].

    The controller receives messages [{ cmd, requestId, payload }] from a
    webview, resolves [cmd] as a member of itself ([this[message.cmd]]),
    calls it on the payload and posts back either [{ requestId, payload }]
    or [{ requestId, error }].

    Modelling choices.
    - JavaScript values are immutable trees ([value]).  Numbers are the
      integers among the binary64 numbers, negative zero, the two infinities
      and NaN; a number with a fractional part has no value here.  Strings
      are Rocq strings, read as the UTF-8 bytes of the JavaScript string, a
      surrogate on its own as the three bytes of its code.
    - A message payload is built afresh for each message and is owned by the
      one dispatch that handles it, and nothing reads it once its handler
      has returned; so the in-place [push] of [doAction] is written as the
      updated log entry that the handler goes on to return.
    - Everything behind an interface (git service, avatar providers, command
      manager, commit viewer, event subscriptions) is reached through
      [respond], an oracle over an abstract world; each such call may return
      or throw and is recorded in the trace.  [webview.postMessage] and
      [applicationShell.showErrorMessage] hand back a promise nobody awaits:
      they are recorded and never throw.
    - A dispatch runs to completion before the next input is taken.  The
      handlers share no mutable state but the subscriber slot, which is read
      and written with no [await] in between, and each works on a message of
      its own.
    - The [@captureTelemetry()] decorator is taken to be transparent. *)

From Stdlib Require Import ZArith List String Ascii Bool Lia.
From Stdlib Require Import DecimalString DecimalPos DecimalNat.
Import ListNotations.
Open Scope string_scope.
Open Scope Z_scope.
Set Warnings "-register-all".

(** ** JavaScript values *)

Module Js.

Inductive value : Type :=
| VUndef
| VNull
| VBool (b : bool)
| VNum (z : Z)
| VNegZero
| VInf (negative : bool)
| VNaN
| VStr (s : string)
| VArr (elems : list value)
| VObj (fields : list (string * value))
(* an object of the host: only its origin is known, none of its properties *)
| VHost (ctor : string) (args : list value).

(** The completion of an evaluation: a value, or a thrown exception. *)
Inductive outcome (A : Type) : Type :=
| Returns (a : A)
| Throws (e : value).
Arguments Returns {A} a.
Arguments Throws {A} e.

Definition TypeError : value := VHost "TypeError" [].
Definition URIError : value := VHost "URIError" [].

(** Own property of an association list; the first binding of a key counts. *)
Fixpoint assoc {A : Type} (k : string) (l : list (string * A)) : option A :=
  match l with
  | [] => None
  | (k', v) :: l' => if String.eqb k k' then Some v else assoc k l'
  end.

(** [o[k] = v] on the property list: an existing key keeps its place. *)
Fixpoint set_field (k : string) (v : value) (l : list (string * value))
  : list (string * value) :=
  match l with
  | [] => [(k, v)]
  | (k', v') :: l' =>
      if String.eqb k k' then (k, v) :: l' else (k', v') :: set_field k v l'
  end.

(** *** Strings *)

Definition code (c : ascii) : Z := Z.of_nat (nat_of_ascii c).

Definition byte_of (z : Z) : ascii := ascii_of_nat (Z.to_nat z).

(** The three bytes of the 16-bit code [u]. *)
Definition three_bytes (u : Z) : string :=
  String (byte_of (Z.lor 0xE0 (Z.shiftr u 12)))
    (String (byte_of (Z.lor 0x80 (Z.land (Z.shiftr u 6) 0x3F)))
       (String (byte_of (Z.lor 0x80 (Z.land u 0x3F))) EmptyString)).

(** The UTF-16 code units of a string, each as a string of its own: a
    character of one, two or three bytes is one unit, a character of four
    bytes is a pair of surrogates.  (A byte out of place counts as a unit.) *)
Fixpoint code_units (s : string) : list string :=
  match s with
  | EmptyString => []
  | String a r =>
      if code a <? 0xC0 then String a EmptyString :: code_units r
      else
        match r with
        | EmptyString => [s]
        | String b r1 =>
            if code a <? 0xE0 then String a (String b EmptyString) :: code_units r1
            else
              match r1 with
              | EmptyString => [s]
              | String c r2 =>
                  if code a <? 0xF0
                  then String a (String b (String c EmptyString)) :: code_units r2
                  else
                    match r2 with
                    | EmptyString => [s]
                    | String d r3 =>
                        let point :=
                          Z.lor (Z.shiftl (Z.land (code a) 0x07) 18)
                            (Z.lor (Z.shiftl (Z.land (code b) 0x3F) 12)
                               (Z.lor (Z.shiftl (Z.land (code c) 0x3F) 6)
                                  (Z.land (code d) 0x3F))) in
                        let offset := point - 0x10000 in
                        three_bytes (0xD800 + Z.shiftr offset 10)
                          :: three_bytes (0xDC00 + Z.land offset 0x3FF)
                          :: code_units r3
                    end
              end
        end
  end.

(** [v.k] for the property names the controller reads.  None of them is
    inherited from [Object.prototype], [Array.prototype] or
    [String.prototype], so only own properties and [length] matter.  A host
    object is given no property: payloads are data and hold none. *)
Definition field (v : value) (k : string) : value :=
  match v with
  | VObj fs => match assoc k fs with Some x => x | None => VUndef end
  | VArr xs => if String.eqb k "length" then VNum (Z.of_nat (List.length xs)) else VUndef
  | VStr s =>
      if String.eqb k "length" then VNum (Z.of_nat (List.length (code_units s))) else VUndef
  | _ => VUndef
  end.

Definition nullish (v : value) : bool :=
  match v with VUndef | VNull => true | _ => false end.

Definition get (v : value) (k : string) : outcome value :=
  if nullish v then Throws TypeError else Returns (field v k).

(** ToBoolean *)
Definition truthy (v : value) : bool :=
  match v with
  | VUndef | VNull | VNaN | VNegZero => false
  | VBool b => b
  | VNum z => negb (z =? 0)
  | VStr s => negb (String.eqb s "")
  | VInf _ | VArr _ | VObj _ | VHost _ _ => true
  end.

Definition is_string (v : value) : bool :=
  match v with VStr _ => true | _ => false end.

(** [a === b] against a string literal, as the [switch] statements test it. *)
Definition is_literal (v : value) (lit : string) : bool :=
  match v with VStr s => String.eqb s lit | _ => false end.

(** *** Numbers *)

(** The binary64 number nearest to the integer [n >= 0], ties going to the
    even significand; [None] stands for infinity. *)
Definition round_binary64 (n : Z) : option Z :=
  if n <? 2 ^ 53 then Some n
  else
    let e := Z.log2 n - 52 in
    let q := Z.shiftr n e in
    let r := n - Z.shiftl q e in
    let half := Z.shiftl 1 (e - 1) in
    let q' := if r <? half then q
              else if half <? r then q + 1
              else if Z.even q then q else q + 1 in
    let m := Z.shiftl q' e in
    if m <? 2 ^ 1024 then Some m else None.

(** The number value of the integer [n >= 0] under a sign. *)
Definition number (negative : bool) (n : Z) : value :=
  match round_binary64 n with
  | Some m =>
      if negative then (if m =? 0 then VNegZero else VNum (- m)) else VNum m
  | None => VInf negative
  end.

Definition rounds_to (n c : Z) : bool :=
  match round_binary64 c with Some m => m =? n | None => false end.

(** The multiple of [u] nearest to [n] among those (next below, next above)
    that are read back as [n]. *)
Definition nearest_multiple (n u : Z) : option Z :=
  let lo := n / u * u in
  let hi := lo + u in
  match rounds_to n lo, rounds_to n hi with
  | true, true =>
      Some (if n - lo <? hi - n then lo
            else if hi - n <? n - lo then hi
            else if Z.even (n / u) then lo else hi)
  | true, false => Some lo
  | false, true => Some hi
  | false, false => None
  end.

Fixpoint first_some {A B : Type} (f : A -> option B) (l : list A) : option B :=
  match l with
  | [] => None
  | x :: r => match f x with Some b => Some b | None => first_some f r end
  end.

Definition decimal (n : Z) : string := NilZero.string_of_uint (N.to_uint (Z.to_N n)).

(** The integer with the fewest significant digits that is read back as the
    binary64 number [n >= 0]; seventeen digits tell any two apart. *)
Definition shortest (n : Z) : Z :=
  let L := Z.of_nat (String.length (decimal n)) in
  match first_some (fun k => nearest_multiple n (10 ^ Z.max 0 (L - Z.of_nat k)))
                   (seq 1 17) with
  | Some c => c
  | None => n
  end.

Fixpoint strip_zeros (s : string) : string :=
  match s with
  | EmptyString => EmptyString
  | String c r =>
      match strip_zeros r with
      | EmptyString => if Ascii.eqb c "0" then EmptyString else String c EmptyString
      | r' => String c r'
      end
  end.

(** Number::toString in radix 10 on an integer: its shortest digits, filled
    up with zeros below 1e21, with an exponent from there on. *)
Definition Number_toString (z : Z) : string :=
  let c := shortest (Z.abs z) in
  if c <? 10 ^ 21 then NilZero.string_of_int (Z.to_int (Z.sgn z * c))
  else
    let ds := decimal c in
    let exponent := decimal (Z.of_nat (String.length ds) - 1) in
    (if z <? 0 then "-" else "") ++
    match strip_zeros ds with
    | String d EmptyString => String d ("e+" ++ exponent)
    | String d r => String d ("." ++ r ++ "e+" ++ exponent)
    | EmptyString => EmptyString
    end.

(** *** ToString *)

Definition join (sep : string) (l : list string) : string :=
  match l with
  | [] => ""
  | x :: r => fold_left (fun acc y => acc ++ sep ++ y) r x
  end.

(** ToString, and ToPropertyKey, which is the same on these values.  A
    payload holds data and no function: an object with a [toString] of its
    own then has no method to print it with ([Object.prototype.valueOf]
    hands back the object), which is a [TypeError]; without one it prints
    through [Object.prototype.toString].  An array prints through [join],
    element by element.  A host object prints as an object does: payloads
    hold none. *)
Fixpoint ToString (v : value) : outcome string :=
  match v with
  | VUndef => Returns "undefined"
  | VNull => Returns "null"
  | VBool true => Returns "true"
  | VBool false => Returns "false"
  | VNum z => Returns (Number_toString z)
  | VNegZero => Returns "0"
  | VInf negative => Returns (if negative then "-Infinity" else "Infinity")
  | VNaN => Returns "NaN"
  | VStr s => Returns s
  | VArr xs =>
      match
        (fix elements (xs : list value) : outcome (list string) :=
           match xs with
           | [] => Returns []
           | x :: r =>
               match (if nullish x then Returns "" else ToString x) with
               | Returns s =>
                   match elements r with
                   | Returns l => Returns (s :: l)
                   | Throws e => Throws e
                   end
               | Throws e => Throws e
               end
           end) xs
      with
      | Returns l => Returns (join "," l)
      | Throws e => Throws e
      end
  | VObj fs =>
      match assoc "toString" fs with
      | Some _ => Throws TypeError
      | None => Returns "[object Object]"
      end
  | VHost _ _ => Returns "[object Object]"
  end.

(** *** parseInt *)

(** The number of bytes the white space or line terminator at the head of
    [s] takes (StrWhiteSpaceChar, in UTF-8), 0 when there is none:
    U+0009..U+000D, U+0020, U+00A0, U+1680, U+2000..U+200A, U+2028, U+2029,
    U+202F, U+205F, U+3000, U+FEFF. *)
Definition space_width (s : string) : nat :=
  match s with
  | EmptyString => 0%nat
  | String c r =>
      let a := code c in
      if ((9 <=? a) && (a <=? 13)) || (a =? 32) then 1%nat
      else
        match r with
        | EmptyString => 0%nat
        | String c1 r1 =>
            let b := code c1 in
            if (a =? 0xC2) && (b =? 0xA0) then 2%nat
            else
              match r1 with
              | EmptyString => 0%nat
              | String c2 _ =>
                  let d := code c2 in
                  if (a =? 0xE1) && (b =? 0x9A) && (d =? 0x80) then 3%nat
                  else if (a =? 0xE2) && (b =? 0x80)
                          && (((0x80 <=? d) && (d <=? 0x8A))
                              || (d =? 0xA8) || (d =? 0xA9) || (d =? 0xAF)) then 3%nat
                  else if (a =? 0xE2) && (b =? 0x81) && (d =? 0x9F) then 3%nat
                  else if (a =? 0xE3) && (b =? 0x80) && (d =? 0x80) then 3%nat
                  else if (a =? 0xEF) && (b =? 0xBB) && (d =? 0xBF) then 3%nat
                  else 0%nat
              end
        end
  end.

Fixpoint drop (n : nat) (s : string) : string :=
  match n, s with
  | S n', String _ r => drop n' r
  | _, _ => s
  end.

(** [fuel] bounds the number of characters skipped. *)
Fixpoint trim_start_upto (fuel : nat) (s : string) : string :=
  match fuel with
  | O => s
  | S fuel' =>
      match space_width s with
      | O => s
      | w => trim_start_upto fuel' (drop w s)
      end
  end.

(** The string without its leading white space; every character skipped
    takes a byte at least, so the length is fuel enough. *)
Definition trim_start (s : string) : string :=
  trim_start_upto (String.length s) s.

Definition digit_value (c : ascii) : option Z :=
  let n := code c in
  if (48 <=? n) && (n <=? 57) then Some (n - 48)
  else if (97 <=? n) && (n <=? 122) then Some (n - 87)
  else if (65 <=? n) && (n <=? 90) then Some (n - 55)
  else None.

(** The longest prefix of radix-[R] digits, read left to right; [None] when
    there is no digit at all. *)
Fixpoint digits (R : Z) (acc : option Z) (s : string) : option Z :=
  match s with
  | EmptyString => acc
  | String c r =>
      match digit_value c with
      | Some d =>
          if d <? R
          then digits R (Some (match acc with Some a => a * R + d | None => d end)) r
          else acc
      | None => acc
      end
  end.

Definition strip_sign (s : string) : Z * string :=
  match s with
  | String "-" r => (-1, r)
  | String "+" r => (1, r)
  | _ => (1, s)
  end.

Definition strip_0x (s : string) : option string :=
  match s with
  | String "0" (String "x" r) => Some r
  | String "0" (String "X" r) => Some r
  | _ => None
  end.

(** [parseInt(v, radix)]; [radix = 0] stands for an absent radix.  The
    integer read is exact, and the number returned the binary64 nearest to
    it (so V8, in the radices 10 and 16, the two the controller can come
    to). *)
Definition parseInt (v : value) (radix : Z) : outcome value :=
  match ToString v with
  | Throws e => Throws e
  | Returns inputString =>
      let (sign, S) := strip_sign (trim_start inputString) in
      if (radix =? 0) || ((2 <=? radix) && (radix <=? 36)) then
        let (R, S) :=
          if (radix =? 0) || (radix =? 16) then
            match strip_0x S with
            | Some S' => (16, S')
            | None => (if radix =? 0 then 10 else radix, S)
            end
          else (radix, S) in
        match digits R None S with
        | Some n => Returns (number (sign =? -1) n)
        | None => Returns VNaN
        end
      else Returns VNaN
  end.

(** *** decodeURIComponent *)

Definition hex_value (c : ascii) : option Z :=
  match digit_value c with
  | Some d => if d <? 16 then Some d else None
  | None => None
  end.

(** After a lead byte, the ranges the following bytes of a well-formed UTF-8
    sequence must fall in (no overlong form, no surrogate, nothing above
    U+10FFFF); [None] when the byte cannot start a sequence. *)
Definition continuation (B : Z) : option (list (Z * Z)) :=
  if (0xC2 <=? B) && (B <=? 0xDF) then Some [(0x80, 0xBF)]
  else if B =? 0xE0 then Some [(0xA0, 0xBF); (0x80, 0xBF)]
  else if B =? 0xED then Some [(0x80, 0x9F); (0x80, 0xBF)]
  else if (0xE1 <=? B) && (B <=? 0xEF) then Some [(0x80, 0xBF); (0x80, 0xBF)]
  else if B =? 0xF0 then Some [(0x90, 0xBF); (0x80, 0xBF); (0x80, 0xBF)]
  else if (0xF1 <=? B) && (B <=? 0xF3) then Some [(0x80, 0xBF); (0x80, 0xBF); (0x80, 0xBF)]
  else if B =? 0xF4 then Some [(0x80, 0x8F); (0x80, 0xBF); (0x80, 0xBF)]
  else None.

(** [pending] lists the ranges of the escaped bytes still owed to the
    sequence being decoded. *)
Fixpoint decode (pending : list (Z * Z)) (s : string) : option string :=
  match pending, s with
  | [], EmptyString => Some EmptyString
  | _ :: _, EmptyString => None
  | _, String "%" (String a (String b r)) =>
      match hex_value a, hex_value b with
      | Some h, Some l =>
          let B := 16 * h + l in
          match pending with
          | [] =>
              if B <? 0x80 then option_map (String (byte_of B)) (decode [] r)
              else match continuation B with
                   | Some more => option_map (String (byte_of B)) (decode more r)
                   | None => None
                   end
          | (lo, hi) :: more =>
              if (lo <=? B) && (B <=? hi)
              then option_map (String (byte_of B)) (decode more r)
              else None
          end
      | _, _ => None
      end
  | _, String "%" _ => None
  | [], String c r => option_map (String c) (decode [] r)
  | _ :: _, String _ _ => None
  end.

Definition decodeURIComponent (v : value) : outcome string :=
  match ToString v with
  | Throws e => Throws e
  | Returns encoded =>
      match decode [] encoded with
      | Some s => Returns s
      | None => Throws URIError
      end
  end.

(** *** Object spread *)

Fixpoint indexed (i : nat) (xs : list value) : list (string * value) :=
  match xs with
  | [] => []
  | x :: r => (NilZero.string_of_uint (Nat.to_uint i), x) :: indexed (S i) r
  end.

(** Own enumerable properties, as [{...v}] copies them. *)
Definition own_properties (v : value) : list (string * value) :=
  match v with
  | VObj fs => fs
  | VArr xs => indexed 0 xs
  | VStr s => indexed 0 (map VStr (code_units s))
  | _ => []
  end.

(** [arr.push(x)]: anything but an array has no callable [push]. *)
Definition push (arr : value) (x : value) : outcome value :=
  match arr with
  | VArr xs => Returns (VArr (xs ++ [x]))
  | _ => Throws TypeError
  end.

(** The object [o] once its property [k] holds [v]. *)
Definition with_field (o : value) (k : string) (v : value) : value :=
  match o with
  | VObj fs => VObj (set_field k v fs)
  | _ => o
  end.

End Js.

Import Js.
Open Scope list_scope.

(** ** Collaborators *)

(** The two event subscriptions the constructor takes out. *)
Inductive subscription : Type :=
| OnDidReceiveMessage
| OnStateChanged.

(** [new CommitDetails(..)] and [new FileCommitDetails(..)]: plain records
    of their arguments. *)
Definition CommitDetails (gitRoot branch logEntry : value) : value :=
  VHost "CommitDetails" [gitRoot; branch; logEntry].
Definition FileCommitDetails (gitRoot branch logEntry committedFile : value) : value :=
  VHost "FileCommitDetails" [gitRoot; branch; logEntry; committedFile].

(** The calls the controller makes on its collaborators.  An argument left
    out in the source is [VUndef]. *)
Inductive call : Type :=
| GitGetLogEntries (startIndex stopIndex branch searchText file lineNumber author : value)
| GitGetBranches
| GitGetAuthors
| GitGetGitRoot
| GitGetCurrentBranch
| GitGetCommit (hash withRefresh : value)
| GitGetOriginType
| GitRemoveTag (name : value)
| GitRemoveBranch (name : value)
| GitRemoveRemoteBranch (name : value)
| GitCreateTag (name hash : value)
| GitCreateBranch (name hash : value)
| GitReset (hash hard : value)
| ViewCommitTree (details : value)
| ExecuteCommand (command : string) (details : value)
| ProviderGetAvatars (provider : nat)
| SubscriptionDispose (s : subscription).

(** What the controller does to the outside, in order. *)
Inductive event : Type :=
| Called (c : call)
| ShowErrorMessage (e : value)
| PostMessage (m : value).

(** An [IAvatarProvider]: [supported] is a pure test, [getAvatars] goes
    through the oracle as [ProviderGetAvatars pid]. *)
Record AvatarProvider : Type := {
  pid : nat;
  supported : value -> bool
}.

Class Collaborators (World : Type) : Type := {
  (* the outcome of a call, and the world after it *)
  respond : call -> World -> outcome value * World;
  (* serviceContainer.getAll(IAvatarProvider) *)
  avatarProviders : list AvatarProvider;
  (* Uri.file(path): a value of the host, or an exception *)
  Uri_file : value -> outcome value;
  (* enum members declared outside this file *)
  GitOriginType_any : value;
  RefType_Tag : value;
  RefType_Head : value;
  (* the members the controller inherits from the base objects of the
     runtime (Disposable.prototype, Object.prototype), as functions of their
     argument: they touch neither the controller nor the collaborators *)
  inherited : string -> option (value -> outcome value)
}.

(** ** The controller *)

Record controller : Type := {
  stateRequestId : value;
  disposable : list subscription
}.

Record state (World : Type) : Type := {
  this : controller;
  world : World;
  trace : list event
}.
Arguments this {World} s.
Arguments world {World} s.
Arguments trace {World} s.

(** State, exceptions and a trace of effects. *)
Definition M (World A : Type) : Type := state World -> outcome A * state World.

Section Monad.

Context {World : Type}.

Definition ret {A} (a : A) : M World A := fun st => (Returns a, st).

Definition throw {A} (e : value) : M World A := fun st => (Throws e, st).

Definition bind {A B} (m : M World A) (f : A -> M World B) : M World B :=
  fun st =>
    match m st with
    | (Returns a, st') => f a st'
    | (Throws e, st') => (Throws e, st')
    end.

Definition try_catch {A} (body : M World A) (handler : value -> M World A) : M World A :=
  fun st =>
    match body st with
    | (Returns a, st') => (Returns a, st')
    | (Throws e, st') => handler e st'
    end.

Definition lift {A} (o : outcome A) : M World A := fun st => (o, st).

Definition emit (ev : event) (st : state World) : state World :=
  {| this := this st; world := world st; trace := trace st ++ [ev] |}.

Definition invoke `{Collaborators World} (c : call) : M World value :=
  fun st =>
    let (r, w) := respond c (world st) in
    (r, {| this := this st; world := w; trace := trace st ++ [Called c] |}).

Definition postMessage (m : value) : M World value :=
  fun st => (Returns VUndef, emit (PostMessage m) st).

Definition showErrorMessage (e : value) : M World value :=
  fun st => (Returns VUndef, emit (ShowErrorMessage e) st).

Definition read_this : M World controller := fun st => (Returns (this st), st).

Definition write_stateRequestId (v : value) : M World value :=
  fun st =>
    (Returns VUndef,
     {| this := {| stateRequestId := v; disposable := disposable (this st) |};
        world := world st; trace := trace st |}).

Fixpoint forEach {A} (l : list A) (f : A -> M World value) : M World value :=
  match l with
  | [] => ret VUndef
  | x :: r => bind (f x) (fun _ => forEach r f)
  end.

End Monad.

Declare Scope js_scope.
Delimit Scope js_scope with js.
Notation "x <- m ;; k" := (bind m (fun x => k))
  (at level 100, m at next level, right associativity) : js_scope.
Notation "m ;; k" := (bind m (fun _ => k))
  (at level 100, right associativity) : js_scope.
Open Scope js_scope.

Section Controller.

Context {World : Type} `{Collaborators World}.

Local Abbreviation async := (M World value).

(** *** Handlers *)

Definition getLogEntries (args : value) : async :=
  searchText <- lift (get args "searchText") ;;
  let searchText :=
    if is_string searchText && is_literal searchText "" then VUndef else searchText in
  a_startIndex <- lift (get args "startIndex") ;;
  startIndex <- lift (if truthy a_startIndex then parseInt a_startIndex 0
                      else Returns (VNum 0)) ;;
  a_stopIndex <- lift (get args "stopIndex") ;;
  stopIndex <- lift (if truthy a_stopIndex then parseInt a_stopIndex 0
                     else Returns (VNum 30)) ;;
  a_authorFilter <- lift (get args "authorFilter") ;;
  let author := if is_string a_authorFilter then a_authorFilter else VUndef in
  a_line <- lift (get args "line") ;;
  lineNumber <- lift (if truthy a_line then parseInt a_line 10 else Returns VUndef) ;;
  branch <- lift (get args "branchName") ;;
  filePath <- lift (get args "file") ;;
  file <- lift (if truthy filePath then Uri_file filePath else Returns VUndef) ;;
  entries <- invoke (GitGetLogEntries startIndex stopIndex branch searchText
                                      file lineNumber author) ;;
  ret (VObj (set_field "stopIndex" stopIndex
              (set_field "startIndex" startIndex (own_properties entries)))).

Definition getBranches (_ : value) : async := invoke GitGetBranches.

Definition getAuthors (_ : value) : async := invoke GitGetAuthors.

Definition getCommit (args : value) : async :=
  hash <- lift (get args "hash") ;;
  gitRoot <- invoke GitGetGitRoot ;;
  branch <- invoke GitGetCurrentBranch ;;
  commit <- invoke (GitGetCommit hash VUndef) ;;
  invoke (ViewCommitTree (CommitDetails gitRoot branch commit)) ;;
  ret commit.

Definition getAvatars (_ : value) : async :=
  originType <- invoke GitGetOriginType ;;
  if negb (truthy originType) then
    postMessage (VObj [("cmd", VStr "getAvatarsResult");
                       ("error", VStr "No origin type found")]) ;;
    ret VUndef
  else
    let providers := avatarProviders in
    let provider := find (fun item => supported item originType) providers in
    let genericProvider := find (fun item => supported item GitOriginType_any) providers in
    match provider with
    | Some p => invoke (ProviderGetAvatars (pid p))
    | None =>
        match genericProvider with
        | Some g => invoke (ProviderGetAvatars (pid g))
        | None => throw TypeError
        end
    end.

Definition doActionRef (args : value) : async :=
  actionName <- lift (get args "name") ;;
  a_hash <- lift (get args "hash") ;;
  hash <- lift (decodeURIComponent a_hash) ;;
  refEntry <- lift (get args "ref") ;;
  (if is_literal actionName "removeTag" then
     name <- lift (get refEntry "name") ;; invoke (GitRemoveTag name)
   else if is_literal actionName "removeBranch" then
     name <- lift (get refEntry "name") ;; invoke (GitRemoveBranch name)
   else if is_literal actionName "removeRemote" then
     name <- lift (get refEntry "name") ;; invoke (GitRemoveRemoteBranch name)
   else ret VUndef) ;;
  invoke (GitGetCommit (VStr hash) (VBool true)).

(** [logEntry.refs.push(ref)], giving the log entry as it is afterwards. *)
Definition push_ref (logEntry ref : value) : async :=
  refs <- lift (get logEntry "refs") ;;
  refs' <- lift (push refs ref) ;;
  ret (with_field logEntry "refs" refs').

Definition doAction (args : value) : async :=
  gitRoot <- invoke GitGetGitRoot ;;
  branch <- invoke GitGetCurrentBranch ;;
  actionName <- lift (get args "name") ;;
  a_value <- lift (get args "value") ;;
  value <- lift (decodeURIComponent a_value) ;;
  logEntry <- lift (get args "logEntry") ;;
  logEntry <-
    (if is_literal actionName "newtag" then
       hash <- lift (get logEntry "hash") ;;
       full <- lift (get hash "full") ;;
       invoke (GitCreateTag (VStr value) full) ;;
       push_ref logEntry (VObj [("type", RefType_Tag); ("name", VStr value)])
     else if is_literal actionName "newbranch" then
       hash <- lift (get logEntry "hash") ;;
       full <- lift (get hash "full") ;;
       invoke (GitCreateBranch (VStr value) full) ;;
       push_ref logEntry (VObj [("type", RefType_Head); ("name", VStr value)])
     else if is_literal actionName "reset_hard" then
       hash <- lift (get logEntry "hash") ;;
       full <- lift (get hash "full") ;;
       invoke (GitReset full (VBool true)) ;;
       ret logEntry
     else if is_literal actionName "reset_soft" then
       hash <- lift (get logEntry "hash") ;;
       full <- lift (get hash "full") ;;
       invoke (GitReset full VUndef) ;;
       ret logEntry
     else
       invoke (ExecuteCommand "git.commit.doSomething"
                              (CommitDetails gitRoot branch logEntry)) ;;
       ret logEntry) ;;
  ret logEntry.

Definition doSomethingWithCommit (args : value) : async :=
  gitRoot <- invoke GitGetGitRoot ;;
  branch <- invoke GitGetCurrentBranch ;;
  logEntry <- lift (get args "logEntry") ;;
  invoke (ExecuteCommand "git.commit.doSomething"
                         (CommitDetails gitRoot branch logEntry)) ;;
  ret VUndef.

Definition selectCommittedFile (args : value) : async :=
  gitRoot <- invoke GitGetGitRoot ;;
  branch <- invoke GitGetCurrentBranch ;;
  logEntry <- lift (get args "logEntry") ;;
  committedFile <- lift (get args "committedFile") ;;
  invoke (ExecuteCommand "git.commit.file.select"
                         (FileCommitDetails gitRoot branch logEntry committedFile)) ;;
  ret VUndef.

Definition registerState (args : value) : async :=
  requestId <- lift (get args "requestId") ;;
  write_stateRequestId requestId.

Definition sendState (args : value) : async := ret args.

(** The command table: the async handlers of the class, by name. *)
Definition command_table : list (string * (value -> async)) :=
  [ ("getLogEntries", getLogEntries);
    ("getBranches", getBranches);
    ("getAuthors", getAuthors);
    ("getCommit", getCommit);
    ("getAvatars", getAvatars);
    ("doActionRef", doActionRef);
    ("doAction", doAction);
    ("doSomethingWithCommit", doSomethingWithCommit);
    ("selectCommittedFile", selectCommittedFile);
    ("registerState", registerState);
    ("sendState", sendState) ].

(** *** Other members *)

Definition webviewPanel : value := VHost "WebviewPanel" [].

Definition getWebviewPanel (_ : value) : async := ret webviewPanel.

Definition dispose (_ : value) : async :=
  c <- read_this ;;
  forEach (disposable c) (fun d => invoke (SubscriptionDispose d)).

(** The fields that hold data or a collaborator: not functions, and without
    a [bind] method of their own. *)
Definition data_fields : list string :=
  [ "disposable"; "commitViewer"; "applicationShell"; "stateRequestId";
    "webviewPanel"; "gitService"; "serviceContainer"; "commandManager" ].

Inductive member : Type :=
| Method (f : value -> async)
| Data
| Missing.

(** [this[name]].  [reenter] is what [this.postMessageParser] does on the
    payload of the message under dispatch, the only argument it can get
    through this lookup. *)
Definition member_of_this (reenter : async) (name : string) : member :=
  match assoc name command_table with
  | Some handler => Method handler
  | None =>
      if String.eqb name "getWebviewPanel" then Method getWebviewPanel
      else if String.eqb name "dispose" then Method dispose
      else if String.eqb name "postMessageParser" then Method (fun _ => reenter)
      else if existsb (String.eqb name) data_fields then Data
      else match inherited name with
           | Some f => Method (fun a => lift (f a))
           | None => Missing
           end
  end.

(** [this[name].bind(this)]: a [TypeError] unless the member is a function. *)
Definition bound_member (reenter : async) (name : string) : M World (value -> async) :=
  match member_of_this reenter name with
  | Method f => ret f
  | Data | Missing => throw TypeError
  end.

(** *** The dispatcher *)

(** The body of [postMessageParser]. *)
Definition dispatch (reenter : async) (message : value) : async :=
  try_catch
    (cmd <- lift (get message "cmd") ;;
     name <- lift (ToString cmd) ;;
     f <- bound_member reenter name ;;
     payload <- lift (get message "payload") ;;
     result <- f payload ;;
     requestId <- lift (get message "requestId") ;;
     postMessage (VObj [("requestId", requestId); ("payload", result)]) ;;
     ret VUndef)
    (fun ex =>
       showErrorMessage ex ;;
       requestId <- lift (get message "requestId") ;;
       postMessage (VObj [("requestId", requestId); ("error", ex)]) ;;
       ret VUndef).

(** The parser on a message without a payload to re-enter on. *)
Definition postMessageParser_undefined : async :=
  dispatch (throw TypeError) VUndef.

Fixpoint postMessageParser (message : value) : async :=
  dispatch
    match message with
    | VObj fs =>
        (fix on_payload (fs : list (string * value)) : async :=
           match fs with
           | [] => postMessageParser_undefined
           | (k, v) :: r =>
               if String.eqb "payload" k then postMessageParser v else on_payload r
           end) fs
    | _ => postMessageParser_undefined
    end
    message.

(** The listener the constructor binds to [gitService.onStateChanged]. *)
Definition onStateChanged_listener : async :=
  c <- read_this ;;
  postMessageParser (VObj [("cmd", VStr "sendState");
                           ("requestId", stateRequestId c);
                           ("payload", VObj [])]) ;;
  ret VUndef.

(** *** Life cycle *)

(** The controller as the constructor leaves it: both subscriptions taken
    out and held in [this.disposable], in that order. *)
Definition constructed : controller :=
  {| stateRequestId := VStr "";
     disposable := [OnDidReceiveMessage; OnStateChanged] |}.

Definition start (w : World) : state World :=
  {| this := constructed; world := w; trace := [] |}.

Inductive input : Type :=
| Message (m : value)
| StateChanged
| Dispose.

(** What the controller does with an input that reaches it: a message of the
    webview, a state change of the git service, a call of [dispose]. *)
Definition deliver (i : input) : async :=
  match i with
  | Message m => postMessageParser m
  | StateChanged => onStateChanged_listener
  | Dispose => dispose VUndef
  end.

Definition run_inputs (l : list input) (st : state World) : state World :=
  fold_left (fun st i => snd (deliver i st)) l st.

End Controller.

(** ** Reading a trace *)

Definition posted (t : list event) : list value :=
  flat_map (fun ev => match ev with PostMessage m => [m] | _ => [] end) t.

Definition shown (t : list event) : list value :=
  flat_map (fun ev => match ev with ShowErrorMessage e => [e] | _ => [] end) t.

Definition calls (t : list event) : list call :=
  flat_map (fun ev => match ev with Called c => [c] | _ => [] end) t.

(** An envelope is a posted object with a [requestId] of its own. *)
Definition is_envelope (m : value) : bool :=
  match m with
  | VObj fs => match assoc "requestId" fs with Some _ => true | None => false end
  | _ => false
  end.

Definition envelopes (t : list event) : list value := filter is_envelope (posted t).

Definition success_envelope (requestId result : value) : value :=
  VObj [("requestId", requestId); ("payload", result)].

Definition error_envelope (requestId ex : value) : value :=
  VObj [("requestId", requestId); ("error", ex)].

(** An inbound message of the webview. *)
Definition inbound (cmd : string) (requestId payload : value) : value :=
  VObj [("cmd", VStr cmd); ("requestId", requestId); ("payload", payload)].

(** How many times the subscription [s] was asked to dispose. *)
Definition release_count (s : subscription) (t : list event) : nat :=
  List.length
    (filter (fun c => match c, s with
                      | SubscriptionDispose OnDidReceiveMessage, OnDidReceiveMessage
                      | SubscriptionDispose OnStateChanged, OnStateChanged => true
                      | _, _ => false
                      end) (calls t)).

(** ** A scripted world

    Collaborators that answer each call with the next outcome of a script,
    and with [undefined] once the script is used up. *)

Definition script : Type := list (outcome value).

Definition scripted_respond (c : call) (w : script) : outcome value * script :=
  match w with
  | [] => (Returns VUndef, [])
  | r :: w' => (r, w')
  end.

Definition Scripted : Collaborators script :=
  {| respond := scripted_respond;
     Uri_file := fun path => Returns (VHost "Uri.file" [path]);
     avatarProviders :=
       [ {| pid := 0; supported := fun t => match t with VNum 2 => true | _ => false end |};
         {| pid := 1; supported := fun t => match t with VNum 1 => true | _ => false end |} ];
     GitOriginType_any := VNum 1;
     RefType_Tag := VNum 2;
     RefType_Head := VNum 0;
     inherited := fun _ => None |}.

(** Collaborators that never fail: every call returns [undefined]. *)
Definition Calm : Collaborators unit :=
  {| respond := fun _ w => (Returns VUndef, w);
     Uri_file := fun path => Returns (VHost "Uri.file" [path]);
     avatarProviders := [];
     GitOriginType_any := VNum 1;
     RefType_Tag := VNum 2;
     RefType_Head := VNum 0;
     inherited := fun _ => None |}.

(** ** Vocabulary of the properties *)

(** A decimal numeral: an optional sign, then digits and nothing else. *)
Definition is_decimal_digit (c : ascii) : bool :=
  match digit_value c with Some d => d <? 10 | None => false end.

Definition numeral (s : string) : bool :=
  match list_ascii_of_string (snd (strip_sign s)) with
  | [] => false
  | ds => forallb is_decimal_digit ds
  end.

(** No digit where [parseInt] starts to read: after white space and a sign. *)
Definition no_leading_digit (s : string) : bool :=
  match snd (strip_sign (trim_start s)) with
  | String c _ => negb (is_decimal_digit c)
  | EmptyString => true
  end.

(** [v] has a string form: [ToString] does not throw on it. *)
Definition printable (v : value) : bool :=
  match ToString v with Returns _ => true | Throws _ => false end.

(** The fields [getLogEntries] hands to [parseInt], as it does with those
    that are truthy. *)
Definition numeric_fields : list string := ["startIndex"; "stopIndex"; "line"].

(** Every field that [getLogEntries] hands to [parseInt] has a string form. *)
Definition parsable (args : value) : bool :=
  forallb (fun k => implb (truthy (field args k)) (printable (field args k)))
          numeric_fields.

(** The array index a property name stands for: the number it is the
    decimal writing of. *)
Definition index_of (k : string) : option nat :=
  match NilZero.uint_of_string k with
  | Some u =>
      let i := Nat.of_uint u in
      if String.eqb (NilZero.string_of_uint (Nat.to_uint i)) k then Some i else None
  | None => None
  end.

(** The own enumerable property of a value under a name: the field of an
    object, the element of an array or the code unit of a string at the
    index the name stands for; a value of another kind has none. *)
Definition own_property (v : value) (k : string) : option value :=
  match v with
  | VObj fs => assoc k fs
  | VArr xs => match index_of k with Some i => nth_error xs i | None => None end
  | VStr s =>
      match index_of k with
      | Some i => option_map VStr (nth_error (code_units s) i)
      | None => None
      end
  | _ => None
  end.

(** The calls that ask each of the held subscriptions to dispose. *)
Definition released (held : list subscription) : list event :=
  map (fun d => Called (SubscriptionDispose d)) held.

Section Vocabulary.

Context {World : Type} `{Collaborators World}.

(** The events between two states of one run. *)
Definition since (st st' : state World) : list event :=
  skipn (List.length (trace st)) (trace st').

(** [name] resolves to a function member of the controller. *)
Definition callable (name : string) : bool :=
  match member_of_this (throw TypeError) name with
  | Method _ => true
  | Data | Missing => false
  end.

(** The input may write the subscriber slot: a [registerState] message, or
    one that re-enters the parser. *)
Definition writes_slot (i : input) : bool :=
  match i with
  | Message m =>
      match ToString (field m "cmd") with
      | Returns cmd => String.eqb cmd "registerState" || String.eqb cmd "postMessageParser"
      | Throws _ => false
      end
  | StateChanged | Dispose => false
  end.

(** A state-change notification in [st] does what the [sendState] message
    carrying [requestId] does: it posts the success envelope of that request
    and nothing else. *)
Definition notifies (st : state World) (requestId : value) : Prop :=
  let synthetic := inbound "sendState" requestId (VObj []) in
  let st' := emit (PostMessage (success_envelope requestId (VObj []))) st in
  postMessageParser synthetic st = (Returns VUndef, st') /\
  onStateChanged_listener st = (Returns VUndef, st').

(** Footprints of a computation.  [silent]: calls on collaborators only. *)
Definition silent {A} (m : M World A) : Prop :=
  forall st o st', m st = (o, st') ->
    this st' = this st /\
    exists evs, trace st' = trace st ++ evs /\ posted evs = [] /\ shown evs = [].

(** [orderly]: the controller is left as it was, no envelope is posted, and
    nothing at all is posted when the computation throws. *)
Definition orderly {A} (m : M World A) : Prop :=
  forall st o st', m st = (o, st') ->
    this st' = this st /\
    exists evs, trace st' = trace st ++ evs /\ envelopes evs = [] /\ shown evs = [] /\
      match o return Prop with Throws _ => posted evs = [] | Returns _ => True end.

(** [tidy]: as [orderly], but the controller need only be left as it was
    when the computation throws. *)
Definition tidy {A} (m : M World A) : Prop :=
  forall st o st', m st = (o, st') ->
    exists evs, trace st' = trace st ++ evs /\ envelopes evs = [] /\ shown evs = [] /\
      match o return Prop with
      | Throws _ => this st' = this st /\ posted evs = []
      | Returns _ => True
      end.

(** [mute]: nothing is posted. *)
Definition mute {A} (m : M World A) : Prop :=
  forall st o st', m st = (o, st') ->
    exists evs, trace st' = trace st ++ evs /\ posted evs = [].

(** [clean_throw]: a throw leaves the controller as it was and posts nothing. *)
Definition clean_throw {A} (m : M World A) : Prop :=
  forall st e st', m st = (Throws e, st') ->
    this st' = this st /\ exists evs, trace st' = trace st ++ evs /\ posted evs = [].

End Vocabulary.

(** ** The statements that do not hold of the code, as they are worded *)

(** An unknown command name always gets an error envelope. *)
Definition unknown_command_claim : Prop :=
  forall (World : Type) (C : Collaborators World)
         (cmd : string) (requestId payload : value) (st : state World),
    assoc cmd command_table = None ->
    exists e st',
      postMessageParser (inbound cmd requestId payload) st = (Returns VUndef, st') /\
      envelopes (since st st') = [error_envelope requestId e].

(** A malformed numeric string makes [getLogEntries] fail, and nothing is
    forwarded to the git service. *)
Definition malformed_number_claim : Prop :=
  forall (World : Type) (C : Collaborators World)
         (fs : list (string * value)) (k s : string) (requestId : value)
         (st : state World),
    In k ["startIndex"; "stopIndex"; "line"] ->
    field (VObj fs) k = VStr s ->
    numeral s = false ->
    exists e st',
      postMessageParser (inbound "getLogEntries" requestId (VObj fs)) st
        = (Returns VUndef, st') /\
      envelopes (since st st') = [error_envelope requestId e] /\
      calls (since st st') = [].

(** However often disposal is requested, a held subscription is released
    once. *)
Definition dispose_once_claim : Prop :=
  forall (World : Type) (C : Collaborators World) (st : state World)
         (n : nat) (s : subscription),
    In s (disposable (this st)) ->
    release_count s (since st (run_inputs (repeat Dispose (S n)) st)) = 1%nat.

(** [doAction] creates the tag (the branch) under the very [value] of the
    payload and appends a ref of that name. *)
Definition doAction_create_claim : Prop :=
  forall (World : Type) (C : Collaborators World)
         (action : string) (type : value) (create : value -> value -> call)
         (v : string) (h : value) (refs : list value)
         (st : state World) (g b x : value) (w1 w2 w3 : World),
    (action, type, create) = ("newtag", RefType_Tag, GitCreateTag) \/
    (action, type, create) = ("newbranch", RefType_Head, GitCreateBranch) ->
    respond GitGetGitRoot (world st) = (Returns g, w1) ->
    respond GitGetCurrentBranch w1 = (Returns b, w2) ->
    respond (create (VStr v) h) w2 = (Returns x, w3) ->
    let logEntry := VObj [("hash", VObj [("full", h)]); ("refs", VArr refs)] in
    exists st',
      doAction (VObj [("name", VStr action); ("value", VStr v); ("logEntry", logEntry)]) st
        = (Returns (with_field logEntry "refs"
                      (VArr (refs ++ [VObj [("type", type); ("name", VStr v)]]))), st') /\
      calls (since st st') = [GitGetGitRoot; GitGetCurrentBranch; create (VStr v) h].

(** ** Vocabulary of the further properties *)

(** The number of nodes of a value. *)
Fixpoint vsize (v : value) : nat :=
  match v with
  | VArr xs => S (list_sum (map vsize xs))
  | VObj fs => S (list_sum (map (fun '(_, x) => vsize x) fs))
  | VHost _ args => S (list_sum (map vsize args))
  | _ => 1
  end.

(** The message [getAvatars] posts by itself. *)
Definition no_origin_message : value :=
  VObj [("cmd", VStr "getAvatarsResult"); ("error", VStr "No origin type found")].

(** The two shapes a posted message has. *)
Definition wire_shape (m : value) : Prop :=
  is_envelope m = true \/ m = no_origin_message.

(** The integer [n] is a binary64 number. *)
Definition is_binary64 (n : Z) : bool := rounds_to (Z.abs n) (Z.abs n).

Definition is_array (v : value) : bool :=
  match v with VArr _ => true | _ => false end.

(** The names [doAction] has a case for. *)
Definition doAction_cases : list string :=
  ["newtag"; "newbranch"; "reset_hard"; "reset_soft"].

(** The names [doActionRef] has a case for. *)
Definition doActionRef_cases : list string :=
  ["removeTag"; "removeBranch"; "removeRemote"].

Definition is_one_of (v : value) (names : list string) : bool :=
  existsb (is_literal v) names.

(** The scripted world without any avatar provider. *)
Definition Unprovided : Collaborators script :=
  {| respond := scripted_respond;
     Uri_file := fun path => Returns (VHost "Uri.file" [path]);
     avatarProviders := [];
     GitOriginType_any := VNum 1;
     RefType_Tag := VNum 2;
     RefType_Head := VNum 0;
     inherited := fun _ => None |}.

(** Collaborators among which the subscription to the webview's messages
    throws when it is disposed of; every other call returns [undefined]. *)
Definition Brittle : Collaborators unit :=
  {| respond := fun c w =>
       match c with
       | SubscriptionDispose OnDidReceiveMessage => (Throws (VStr "disposed"), w)
       | _ => (Returns VUndef, w)
       end;
     Uri_file := fun path => Returns (VHost "Uri.file" [path]);
     avatarProviders := [];
     GitOriginType_any := VNum 1;
     RefType_Tag := VNum 2;
     RefType_Head := VNum 0;
     inherited := fun _ => None |}.

Section FurtherVocabulary.

Context {World : Type} `{Collaborators World}.

(** [lawful]: the held subscriptions stay as they are, and whatever is
    posted has one of the two shapes. *)
Definition lawful {A} (m : M World A) : Prop :=
  forall st o st', m st = (o, st') ->
    disposable (this st') = disposable (this st) /\
    exists evs, trace st' = trace st ++ evs /\ Forall wire_shape (posted evs).

End FurtherVocabulary.

(** ** The primitives on a few inputs *)

Example ToString_examples :
  ToString (VNum 42) = Returns "42" /\
  ToString (VNum (-7)) = Returns "-7" /\
  ToString (VNum (2 ^ 60)) = Returns "1152921504606847000" /\
  ToString (VNum (10 ^ 21)) = Returns "1e+21" /\
  ToString (VNum (- 2 ^ 70)) = Returns "-1.1805916207174113e+21" /\
  ToString (VArr [VNum 7; VNull; VStr "a"; VArr []]) = Returns "7,,a," /\
  ToString (VObj [("cmd", VStr "x")]) = Returns "[object Object]" /\
  ToString (VObj [("toString", VNum 1)]) = Throws TypeError /\
  ToString (VArr [VNum 7; VObj [("toString", VNull)]]) = Throws TypeError.
Proof. repeat split; vm_compute; reflexivity. Qed.

Example parseInt_examples :
  parseInt (VStr "25") 0 = Returns (VNum 25) /\
  parseInt (VStr "  -12abc") 0 = Returns (VNum (-12)) /\
  parseInt (VStr "0x1F") 0 = Returns (VNum 31) /\
  parseInt (VStr "0x1F") 10 = Returns (VNum 0) /\
  parseInt (VStr "-0") 0 = Returns VNegZero /\
  parseInt (VStr "9007199254740993") 0 = Returns (VNum 9007199254740992) /\
  parseInt (VNum 42) 0 = Returns (VNum 42) /\
  parseInt (VNum (10 ^ 21)) 0 = Returns (VNum 1) /\
  parseInt (VArr [VNum 7; VNum 8]) 0 = Returns (VNum 7) /\
  parseInt (VStr "abc") 0 = Returns VNaN /\
  parseInt (VStr "-") 10 = Returns VNaN /\
  parseInt (VBool true) 0 = Returns VNaN /\
  parseInt (VObj []) 0 = Returns VNaN /\
  parseInt (VObj [("toString", VNum 1)]) 0 = Throws TypeError.
Proof. repeat split; vm_compute; reflexivity. Qed.

Example decodeURIComponent_examples :
  decodeURIComponent (VStr "v1") = Returns "v1" /\
  decodeURIComponent (VStr "release%2F1.0") = Returns "release/1.0" /\
  decodeURIComponent (VStr "%41") = Returns "A" /\
  decodeURIComponent (VStr "%") = Throws URIError /\
  decodeURIComponent (VStr "%4") = Throws URIError /\
  decodeURIComponent (VStr "%C3x") = Throws URIError /\
  decodeURIComponent (VStr "%E0%80%80") = Throws URIError /\
  decodeURIComponent VUndef = Returns "undefined" /\
  decodeURIComponent (VObj [("toString", VStr "v1")]) = Throws TypeError.
Proof. repeat split. Qed.

Example truthy_examples :
  truthy (VStr "") = false /\ truthy (VStr "0") = true /\ truthy (VNum 0) = false /\
  truthy VNaN = false /\ truthy (VObj []) = true /\ truthy (VArr []) = true.
Proof. repeat split. Qed.

Example get_examples :
  get VUndef "hash" = Throws TypeError /\
  get VNull "hash" = Throws TypeError /\
  get (VObj [("hash", VStr "abc")]) "hash" = Returns (VStr "abc") /\
  get (VObj [("hash", VStr "abc")]) "name" = Returns VUndef /\
  get (VStr "abc") "name" = Returns VUndef.
Proof. repeat split. Qed.

Example code_units_examples :
  code_units "ab" = ["a"; "b"] /\
  (* U+00E9, then x *)
  List.length (code_units (String (byte_of 0xC3) (String (byte_of 0xA9) "x"))) = 2%nat /\
  (* U+1F600: the surrogates D83D and DE00 *)
  code_units (String (byte_of 0xF0) (String (byte_of 0x9F)
               (String (byte_of 0x98) (String (byte_of 0x80) ""))))
    = [three_bytes 0xD83D; three_bytes 0xDE00].
Proof. repeat split. Qed.

Example spread_examples :
  set_field "stopIndex" (VNum 30)
    (set_field "startIndex" (VNum 0)
       (own_properties (VObj [("startIndex", VNum 99); ("items", VArr [])])))
  = [("startIndex", VNum 0); ("items", VArr []); ("stopIndex", VNum 30)] /\
  own_properties (VArr [VStr "x"; VNull]) = [("0", VStr "x"); ("1", VNull)] /\
  own_properties (VStr "ab") = [("0", VStr "a"); ("1", VStr "b")] /\
  own_properties VUndef = [] /\
  own_property (VArr [VStr "x"; VNull]) "1" = Some VNull /\
  own_property (VArr [VStr "x"; VNull]) "01" = None /\
  own_property (VArr [VStr "x"; VNull]) "2" = None.
Proof. repeat split. Qed.

(** ** Traces *)

Lemma posted_app (t1 t2 : list event) : posted (t1 ++ t2) = posted t1 ++ posted t2.
Proof. unfold posted. apply flat_map_app. Qed.

Lemma shown_app (t1 t2 : list event) : shown (t1 ++ t2) = shown t1 ++ shown t2.
Proof. unfold shown. apply flat_map_app. Qed.

Lemma calls_app (t1 t2 : list event) : calls (t1 ++ t2) = calls t1 ++ calls t2.
Proof. unfold calls. apply flat_map_app. Qed.

Lemma envelopes_app (t1 t2 : list event) :
  envelopes (t1 ++ t2) = envelopes t1 ++ envelopes t2.
Proof. unfold envelopes. rewrite posted_app. apply filter_app. Qed.

Lemma envelopes_of_none (t : list event) : posted t = [] -> envelopes t = [].
Proof. unfold envelopes. intros ->. reflexivity. Qed.

Lemma release_count_app (s : subscription) (t1 t2 : list event) :
  release_count s (t1 ++ t2) = (release_count s t1 + release_count s t2)%nat.
Proof.
  unfold release_count. rewrite calls_app, filter_app. apply length_app.
Qed.

Section Footprints.

Context {World : Type} `{Collaborators World}.

Lemma since_extension (st st' : state World) (evs : list event) :
  trace st' = trace st ++ evs -> since st st' = evs.
Proof.
  unfold since. intros ->. rewrite skipn_app, skipn_all, Nat.sub_diag. reflexivity.
Qed.

(** *** Silent computations *)

Lemma silent_ret {A} (a : A) : silent (ret (World := World) a).
Proof.
  intros st o st' E. inversion E; subst. split; [reflexivity|].
  exists []. rewrite app_nil_r. auto.
Qed.

Lemma silent_throw {A} (e : value) : silent (throw (World := World) (A := A) e).
Proof.
  intros st o st' E. inversion E; subst. split; [reflexivity|].
  exists []. rewrite app_nil_r. auto.
Qed.

Lemma silent_lift {A} (o : outcome A) : silent (lift (World := World) o).
Proof.
  intros st o' st' E. inversion E; subst. split; [reflexivity|].
  exists []. rewrite app_nil_r. auto.
Qed.

Lemma silent_read_this : silent (read_this (World := World)).
Proof.
  intros st o st' E. inversion E; subst. split; [reflexivity|].
  exists []. rewrite app_nil_r. auto.
Qed.

Lemma silent_invoke (c : call) : silent (invoke c).
Proof.
  intros st o st' E. unfold invoke in E.
  destruct (respond c (world st)) as [r w]. inversion E; subst. simpl.
  split; [reflexivity|]. exists [Called c]. auto.
Qed.

Lemma silent_bind {A B} (m : M World A) (f : A -> M World B) :
  silent m -> (forall a, silent (f a)) -> silent (bind m f).
Proof.
  intros Hm Hf st o st' E. unfold bind in E.
  destruct (m st) as [[a|e] st1] eqn:Em.
  - destruct (Hm _ _ _ Em) as (T1 & evs1 & E1 & P1 & S1).
    destruct (Hf a _ _ _ E) as (T2 & evs2 & E2 & P2 & S2).
    split; [congruence|]. exists (evs1 ++ evs2).
    rewrite E2, E1, app_assoc, posted_app, shown_app, P1, P2, S1, S2. auto.
  - inversion E; subst. exact (Hm _ _ _ Em).
Qed.

Lemma silent_forEach {A} (l : list A) (f : A -> M World value) :
  (forall a, silent (f a)) -> silent (forEach l f).
Proof.
  intros Hf. induction l as [|x r IH]; simpl.
  - apply silent_ret.
  - apply silent_bind; auto.
Qed.

(** *** Orderly and tidy computations *)

Lemma silent_orderly {A} (m : M World A) : silent m -> orderly m.
Proof.
  intros Hm st o st' E. destruct (Hm _ _ _ E) as (T & evs & Et & P & S).
  split; [exact T|]. exists evs. repeat split; auto using envelopes_of_none.
  destruct o; auto.
Qed.

Lemma orderly_tidy {A} (m : M World A) : orderly m -> tidy m.
Proof.
  intros Hm st o st' E. destruct (Hm _ _ _ E) as (T & evs & Et & En & S & P).
  exists evs. repeat split; auto. destruct o; auto.
Qed.

Lemma tidy_clean_throw {A} (m : M World A) : tidy m -> clean_throw m.
Proof.
  intros Hm st e st' E. destruct (Hm _ _ _ E) as (evs & Et & _ & _ & T & P).
  split; [exact T|]. exists evs. auto.
Qed.

Lemma orderly_bind {A B} (m : M World A) (f : A -> M World B) :
  silent m -> (forall a, orderly (f a)) -> orderly (bind m f).
Proof.
  intros Hm Hf st o st' E. unfold bind in E.
  destruct (m st) as [[a|e] st1] eqn:Em.
  - destruct (Hm _ _ _ Em) as (T1 & evs1 & E1 & P1 & S1).
    destruct (Hf a _ _ _ E) as (T2 & evs2 & E2 & N2 & S2 & P2).
    split; [congruence|]. exists (evs1 ++ evs2).
    rewrite E2, E1, app_assoc, envelopes_app, shown_app, N2, S1, S2.
    rewrite (envelopes_of_none _ P1). repeat split; auto.
    destruct o; auto. rewrite posted_app, P1, P2. reflexivity.
  - inversion E; subst. exact (silent_orderly m Hm _ _ _ Em).
Qed.

Lemma tidy_bind {A B} (m : M World A) (f : A -> M World B) :
  silent m -> (forall a, tidy (f a)) -> tidy (bind m f).
Proof.
  intros Hm Hf st o st' E. unfold bind in E.
  destruct (m st) as [[a|e] st1] eqn:Em.
  - destruct (Hm _ _ _ Em) as (T1 & evs1 & E1 & P1 & S1).
    destruct (Hf a _ _ _ E) as (evs2 & E2 & N2 & S2 & P2).
    exists (evs1 ++ evs2).
    rewrite E2, E1, app_assoc, envelopes_app, shown_app, N2, S1, S2.
    rewrite (envelopes_of_none _ P1). repeat split; auto.
    destruct o; auto. destruct P2 as [T2 P2].
    rewrite posted_app, P1, P2. split; [congruence|reflexivity].
  - inversion E; subst. exact (orderly_tidy m (silent_orderly m Hm) _ _ _ Em).
Qed.

(** Posting a message that is no envelope, and returning. *)
Lemma orderly_post_direct (m r : value) :
  is_envelope m = false -> orderly (bind (postMessage (World := World) m) (fun _ => ret r)).
Proof.
  intros Hm st o st' E. inversion E; subst. simpl. split; [reflexivity|].
  exists [PostMessage m]. unfold envelopes. simpl. rewrite Hm. auto.
Qed.

Lemma tidy_write_stateRequestId (v : value) :
  tidy (write_stateRequestId (World := World) v).
Proof.
  intros st o st' E. inversion E; subst. simpl.
  exists []. rewrite app_nil_r. auto.
Qed.

(** *** The handlers *)

Create HintDb footprint.
#[local] Hint Resolve silent_ret silent_throw silent_lift silent_read_this silent_invoke
  : footprint.

Ltac footprint :=
  repeat first
    [ apply silent_bind; [|intro]
    | progress cbv zeta
    | match goal with
      | |- silent (if ?b then _ else _) => destruct b
      | |- silent (match ?x with Some _ => _ | None => _ end) => destruct x
      end
    | solve [auto with footprint] ].

Lemma silent_getLogEntries (args : value) : silent (getLogEntries args).
Proof. unfold getLogEntries. footprint. Qed.

Lemma silent_getBranches (args : value) : silent (getBranches args).
Proof. unfold getBranches. footprint. Qed.

Lemma silent_getAuthors (args : value) : silent (getAuthors args).
Proof. unfold getAuthors. footprint. Qed.

Lemma silent_getCommit (args : value) : silent (getCommit args).
Proof. unfold getCommit. footprint. Qed.

Lemma silent_doActionRef (args : value) : silent (doActionRef args).
Proof. unfold doActionRef. footprint. Qed.

Lemma silent_push_ref (logEntry ref : value) : silent (push_ref (World := World) logEntry ref).
Proof. unfold push_ref. footprint. Qed.

Lemma silent_doAction (args : value) : silent (doAction args).
Proof.
  pose proof silent_push_ref as Hp.
  unfold doAction. footprint; apply Hp.
Qed.

Lemma silent_doSomethingWithCommit (args : value) :
  silent (doSomethingWithCommit args).
Proof. unfold doSomethingWithCommit. footprint. Qed.

Lemma silent_selectCommittedFile (args : value) : silent (selectCommittedFile args).
Proof. unfold selectCommittedFile. footprint. Qed.

Lemma silent_sendState (args : value) : silent (sendState (World := World) args).
Proof. unfold sendState. footprint. Qed.

Lemma silent_getWebviewPanel (args : value) : silent (getWebviewPanel (World := World) args).
Proof. unfold getWebviewPanel. footprint. Qed.

Lemma silent_dispose (args : value) : silent (dispose args).
Proof.
  unfold dispose. apply silent_bind; [footprint|intro c].
  apply silent_forEach. intro d. footprint.
Qed.

Lemma orderly_getAvatars (args : value) : orderly (getAvatars args).
Proof.
  unfold getAvatars. apply orderly_bind; [footprint|intro originType].
  destruct (negb (truthy originType)).
  - apply orderly_post_direct. reflexivity.
  - apply silent_orderly. footprint.
Qed.

Lemma tidy_registerState (args : value) : tidy (registerState (World := World) args).
Proof.
  unfold registerState. apply tidy_bind; [footprint|intro r].
  apply tidy_write_stateRequestId.
Qed.

Lemma silent_mute {A} (m : M World A) : silent m -> mute m.
Proof.
  intros Hm st o st' E. destruct (Hm _ _ _ E) as (_ & evs & Et & P & _).
  exists evs. auto.
Qed.

Lemma mute_registerState (args : value) : mute (registerState (World := World) args).
Proof.
  intros st o st' E. exists []. rewrite app_nil_r. split; [|reflexivity].
  unfold registerState, bind, lift, write_stateRequestId in E.
  destruct (get args "requestId"); inversion E; reflexivity.
Qed.

End Footprints.

(** ** The dispatcher, case by case *)

Section Dispatcher.

Context {World : Type} `{Collaborators World}.

Lemma get_returns (v : value) (k : string) (x : value) :
  get v k = Returns x -> nullish v = false /\ field v k = x.
Proof.
  unfold get. destruct (nullish v); intros E; inversion E. auto.
Qed.

Lemma get_field (v : value) (k : string) :
  nullish v = false -> get v k = Returns (field v k).
Proof. unfold get. intros ->. reflexivity. Qed.

(** A message that is [null] or [undefined]: the [catch] block throws in
    turn when it reads [message.requestId]. *)
Lemma dispatch_nullish (reenter : M World value) (message : value) (st : state World) :
  nullish message = true ->
  dispatch reenter message st = (Throws TypeError, emit (ShowErrorMessage TypeError) st).
Proof.
  intros Hn. unfold dispatch, try_catch, bind, lift, get, showErrorMessage.
  rewrite Hn. reflexivity.
Qed.

(** A command that has no string form (no property key): the lookup
    [this[message.cmd]] throws. *)
Lemma dispatch_unprintable (reenter : M World value) (message : value)
      (st : state World) (e : value) :
  nullish message = false ->
  ToString (field message "cmd") = Throws e ->
  dispatch reenter message st =
    (Returns VUndef,
     emit (PostMessage (error_envelope (field message "requestId") e))
          (emit (ShowErrorMessage e) st)).
Proof.
  intros Hn Hc.
  unfold dispatch, try_catch, bind, lift, get, ret, postMessage, showErrorMessage.
  rewrite Hn, Hc. reflexivity.
Qed.

Lemma dispatch_returns (reenter : M World value) (message : value) (name : string)
      (f : value -> M World value) (st st1 : state World) (result : value) :
  nullish message = false ->
  ToString (field message "cmd") = Returns name ->
  member_of_this reenter name = Method f ->
  f (field message "payload") st = (Returns result, st1) ->
  dispatch reenter message st =
    (Returns VUndef,
     emit (PostMessage (success_envelope (field message "requestId") result)) st1).
Proof.
  intros Hn Hc Hm Hf.
  unfold dispatch, try_catch, bind, lift, get, bound_member, ret, postMessage.
  rewrite Hn, Hc, Hm, Hf. reflexivity.
Qed.

Lemma dispatch_throws (reenter : M World value) (message : value) (name : string)
      (f : value -> M World value) (st st1 : state World) (e : value) :
  nullish message = false ->
  ToString (field message "cmd") = Returns name ->
  member_of_this reenter name = Method f ->
  f (field message "payload") st = (Throws e, st1) ->
  dispatch reenter message st =
    (Returns VUndef,
     emit (PostMessage (error_envelope (field message "requestId") e))
          (emit (ShowErrorMessage e) st1)).
Proof.
  intros Hn Hc Hm Hf.
  unfold dispatch, try_catch, bind, lift, get, bound_member, ret, postMessage,
    showErrorMessage.
  rewrite Hn, Hc, Hm, Hf. reflexivity.
Qed.

(** Whether a name resolves to a function does not depend on the message. *)
Lemma member_kind (r1 r2 : M World value) (name : string) :
  match member_of_this r1 name, member_of_this r2 name with
  | Method f1, Method f2 =>
      f1 = f2 \/ (name = "postMessageParser" /\ f1 = (fun _ => r1) /\ f2 = (fun _ => r2))
  | Data, Data | Missing, Missing => True
  | _, _ => False
  end.
Proof.
  unfold member_of_this.
  destruct (assoc name command_table); [left; reflexivity|].
  destruct (String.eqb name "getWebviewPanel"); [left; reflexivity|].
  destruct (String.eqb name "dispose"); [left; reflexivity|].
  destruct (String.eqb_spec name "postMessageParser"); [right; auto|].
  destruct (existsb (String.eqb name) data_fields); [exact I|].
  destruct (inherited name); [left; reflexivity|exact I].
Qed.

Lemma not_callable (reenter : M World value) (name : string) :
  callable name = false ->
  member_of_this reenter name = Data \/ member_of_this reenter name = Missing.
Proof.
  unfold callable. intros Hc.
  pose proof (member_kind (throw TypeError) reenter name) as K.
  destruct (member_of_this (throw TypeError) name); try discriminate;
    destruct (member_of_this reenter name); auto; contradiction.
Qed.

Lemma dispatch_not_callable (reenter : M World value) (message : value) (name : string)
      (st : state World) :
  nullish message = false ->
  ToString (field message "cmd") = Returns name ->
  callable name = false ->
  dispatch reenter message st =
    (Returns VUndef,
     emit (PostMessage (error_envelope (field message "requestId") TypeError))
          (emit (ShowErrorMessage TypeError) st)).
Proof.
  intros Hn Hs Hc.
  unfold dispatch, try_catch, bind, lift, get, bound_member, ret, postMessage,
    showErrorMessage, throw.
  rewrite Hn, Hs. destruct (not_callable reenter _ Hc) as [-> | ->]; reflexivity.
Qed.

(** A member that is no function is not callable, whatever re-enters. *)
Lemma member_not_callable (reenter : M World value) (name : string) :
  member_of_this reenter name = Data \/ member_of_this reenter name = Missing ->
  callable name = false.
Proof.
  intros Hm. unfold callable.
  pose proof (member_kind (throw TypeError) reenter name) as K.
  destruct Hm as [Hm|Hm]; rewrite Hm in K;
    destruct (member_of_this (throw TypeError) name); auto; contradiction.
Qed.

(** [dispatch] uses [reenter] only by running it. *)
Lemma dispatch_ext (r1 r2 : M World value) (message : value) :
  (forall st, r1 st = r2 st) ->
  forall st, dispatch r1 message st = dispatch r2 message st.
Proof.
  intros Hr st. destruct (nullish message) eqn:Hn.
  - rewrite !dispatch_nullish by assumption. reflexivity.
  - destruct (ToString (field message "cmd")) as [name|e] eqn:Hc.
    2:{ rewrite !(dispatch_unprintable _ _ _ e) by assumption. reflexivity. }
    pose proof (member_kind r1 r2 name) as K.
    unfold dispatch, try_catch, bind, lift, get, bound_member, ret, throw.
    rewrite Hn, Hc.
    destruct (member_of_this r1 _) as [f1| |];
      destruct (member_of_this r2 _) as [f2| |]; try contradiction; try reflexivity.
    destruct K as [-> | (_ & -> & ->)]; [reflexivity|].
    rewrite Hr. reflexivity.
Qed.

Lemma postMessageParser_undefined_run (st : state World) :
  postMessageParser_undefined st = postMessageParser VUndef st.
Proof.
  unfold postMessageParser_undefined. cbn [postMessageParser].
  rewrite !dispatch_nullish by reflexivity. reflexivity.
Qed.

(** [postMessageParser] is [dispatch], re-entered on the payload. *)
Lemma postMessageParser_unfold (message : value) (st : state World) :
  postMessageParser message st =
  dispatch (postMessageParser (field message "payload")) message st.
Proof.
  destruct message; cbn [postMessageParser]; apply dispatch_ext;
    try (intro; apply postMessageParser_undefined_run).
  induction fields as [|[k v] r IH]; intro st'.
  - apply postMessageParser_undefined_run.
  - cbn [field assoc] in *. destruct (String.eqb "payload" k); [reflexivity|apply IH].
Qed.

End Dispatcher.

(** ** Dispatching a message *)

Section Dispatching.

Context {World : Type} `{Collaborators World}.

Lemma table_handlers_tidy (cmd : string) (handler : value -> M World value) :
  assoc cmd command_table = Some handler -> forall payload, tidy (handler payload).
Proof.
  unfold command_table. cbn [assoc].
  repeat (destruct (String.eqb cmd _);
          [ intros E; injection E as <-; intro payload;
            auto using orderly_tidy, silent_orderly, silent_getLogEntries,
              silent_getBranches, silent_getAuthors, silent_getCommit,
              orderly_getAvatars, silent_doActionRef, silent_doAction,
              silent_doSomethingWithCommit, silent_selectCommittedFile,
              tidy_registerState, silent_sendState | ]).
  discriminate.
Qed.

Lemma table_handlers_orderly (cmd : string) (handler : value -> M World value) :
  assoc cmd command_table = Some handler ->
  cmd <> "registerState" ->
  forall payload, orderly (handler payload).
Proof.
  unfold command_table. cbn [assoc].
  repeat (match goal with
          | |- context [String.eqb cmd ?s] => destruct (String.eqb_spec cmd s)
          end;
          [ intros E Hr; injection E as <-; intro payload;
            try contradiction;
            auto using silent_orderly, silent_getLogEntries,
              silent_getBranches, silent_getAuthors, silent_getCommit,
              orderly_getAvatars, silent_doActionRef, silent_doAction,
              silent_doSomethingWithCommit, silent_selectCommittedFile,
              silent_sendState | ]).
  discriminate.
Qed.

Lemma table_handlers_mute (cmd : string) (handler : value -> M World value) :
  assoc cmd command_table = Some handler ->
  cmd <> "getAvatars" ->
  forall payload, mute (handler payload).
Proof.
  unfold command_table. cbn [assoc].
  repeat (match goal with
          | |- context [String.eqb cmd ?s] => destruct (String.eqb_spec cmd s)
          end;
          [ intros E Hr; injection E as <-; intro payload;
            try contradiction;
            auto using silent_mute, silent_getLogEntries,
              silent_getBranches, silent_getAuthors, silent_getCommit,
              silent_doActionRef, silent_doAction,
              silent_doSomethingWithCommit, silent_selectCommittedFile,
              mute_registerState, silent_sendState | ]).
  discriminate.
Qed.

Lemma table_member (reenter : M World value) (cmd : string)
      (handler : value -> M World value) :
  assoc cmd command_table = Some handler ->
  member_of_this reenter cmd = Method handler.
Proof. unfold member_of_this. intros ->. reflexivity. Qed.

(** A message that is an object always gets an answer: the parser returns. *)
Lemma dispatch_total (reenter : M World value) (message : value) (st : state World) :
  nullish message = false ->
  exists st', dispatch reenter message st = (Returns VUndef, st').
Proof.
  intros Hn.
  destruct (ToString (field message "cmd")) as [name|e] eqn:Hc.
  2:{ rewrite (dispatch_unprintable _ _ _ e) by assumption. eauto. }
  destruct (member_of_this reenter name) as [f| |] eqn:Hm.
  - destruct (f (field message "payload") st) as [[v|e] st1] eqn:Hf.
    + erewrite dispatch_returns by eassumption. eauto.
    + erewrite dispatch_throws by eassumption. eauto.
  - rewrite (dispatch_not_callable _ _ name); eauto using member_not_callable.
  - rewrite (dispatch_not_callable _ _ name); eauto using member_not_callable.
Qed.

Lemma parser_clean_throw (message : value) : clean_throw (postMessageParser message).
Proof.
  intros st e st' E. rewrite postMessageParser_unfold in E.
  destruct (nullish message) eqn:Hn.
  - rewrite dispatch_nullish in E by assumption. inversion E; subst.
    split; [reflexivity|]. exists [ShowErrorMessage TypeError]. auto.
  - destruct (dispatch_total (postMessageParser (field message "payload")) message st Hn)
      as [st2 E2].
    rewrite E2 in E. discriminate.
Qed.

Lemma member_clean_throw (inner : value) (cmd : string) (f : value -> M World value) :
  member_of_this (postMessageParser inner) cmd = Method f ->
  forall payload, clean_throw (f payload).
Proof.
  unfold member_of_this.
  destruct (assoc cmd command_table) as [h|] eqn:Ht.
  - intros E; injection E as <-. intro payload.
    apply tidy_clean_throw. eapply table_handlers_tidy; eauto.
  - destruct (String.eqb cmd "getWebviewPanel").
    { intros E; injection E as <-. intro payload.
      apply tidy_clean_throw, orderly_tidy, silent_orderly, silent_getWebviewPanel. }
    destruct (String.eqb cmd "dispose").
    { intros E; injection E as <-. intro payload.
      apply tidy_clean_throw, orderly_tidy, silent_orderly, silent_dispose. }
    destruct (String.eqb cmd "postMessageParser").
    { intros E; injection E as <-. intro payload. apply parser_clean_throw. }
    destruct (existsb (String.eqb cmd) data_fields); [discriminate|].
    destruct (inherited cmd) as [g|]; [|discriminate].
    intros E; injection E as <-. intro payload.
    apply tidy_clean_throw, orderly_tidy, silent_orderly, silent_lift.
Qed.

Lemma success_envelope_is_envelope (requestId result : value) :
  is_envelope (success_envelope requestId result) = true.
Proof. reflexivity. Qed.

Lemma error_envelope_is_envelope (requestId e : value) :
  is_envelope (error_envelope requestId e) = true.
Proof. reflexivity. Qed.

(** C1.  For a command of the command table whose handler returns [result],
    the dispatcher returns after posting the envelope
    [{ requestId: message.requestId, payload: result }], and that is the one
    envelope (posted object with a [requestId]) of the dispatch.  For every
    command but [getAvatars], which may post a message of its own without a
    [requestId], it is the one message posted at all. *)
Theorem dispatch_success_envelope
    (message : value) (cmd : string) (handler : value -> M World value)
    (st st1 : state World) (result : value) :
  get message "cmd" = Returns (VStr cmd) ->
  assoc cmd command_table = Some handler ->
  handler (field message "payload") st = (Returns result, st1) ->
  let reply := success_envelope (field message "requestId") result in
  let st2 := emit (PostMessage reply) st1 in
  postMessageParser message st = (Returns VUndef, st2) /\
  envelopes (since st st2) = [reply] /\
  (cmd <> "getAvatars" -> posted (since st st2) = [reply]).
Proof.
  intros Hc Ht Hh reply st2. apply get_returns in Hc as [Hn Hc]. split; [|split].
  - rewrite postMessageParser_unfold.
    eapply dispatch_returns; eauto; [rewrite Hc; reflexivity|]. apply table_member, Ht.
  - destruct (table_handlers_tidy cmd handler Ht _ _ _ _ Hh) as (evs & Et & En & _).
    rewrite (since_extension st _ (evs ++ [PostMessage reply])).
    + rewrite envelopes_app, En. reflexivity.
    + simpl. rewrite Et, app_assoc. reflexivity.
  - intros Ha.
    destruct (table_handlers_mute cmd handler Ht Ha _ _ _ _ Hh) as (evs & Et & P).
    rewrite (since_extension st _ (evs ++ [PostMessage reply])).
    + rewrite posted_app, P. reflexivity.
    + simpl. rewrite Et, app_assoc. reflexivity.
Qed.

(** C2, as the code has it.  A command name that resolves to no function
    member of the controller (it is no command of the table, none of the
    other methods, and not inherited) makes the dispatcher show a
    [TypeError] and post the one envelope
    [{ requestId: message.requestId, error: TypeError }]; the parser returns
    normally. *)
Theorem unresolved_command_error_envelope
    (message : value) (cmd : string) (st : state World) :
  get message "cmd" = Returns (VStr cmd) ->
  assoc cmd command_table = None ->
  ~ In cmd ["getWebviewPanel"; "dispose"; "postMessageParser"] ->
  inherited cmd = None ->
  let reply := error_envelope (field message "requestId") TypeError in
  let st' := emit (PostMessage reply) (emit (ShowErrorMessage TypeError) st) in
  postMessageParser message st = (Returns VUndef, st') /\
  posted (since st st') = [reply].
Proof.
  intros Hc Ht Hm Hi reply st'. apply get_returns in Hc as [Hn Hc]. split.
  - rewrite postMessageParser_unfold.
    apply (dispatch_not_callable _ _ cmd); [assumption|rewrite Hc; reflexivity|].
    unfold callable, member_of_this. rewrite Ht, Hi.
    destruct (String.eqb_spec cmd "getWebviewPanel"); [subst; simpl in Hm; tauto|].
    destruct (String.eqb_spec cmd "dispose"); [subst; simpl in Hm; tauto|].
    destruct (String.eqb_spec cmd "postMessageParser"); [subst; simpl in Hm; tauto|].
    destruct (existsb (String.eqb cmd) data_fields); reflexivity.
  - rewrite (since_extension st st' [ShowErrorMessage TypeError; PostMessage reply]).
    + reflexivity.
    + simpl. rewrite <- app_assoc. reflexivity.
Qed.

(** C3.  When the member a message names throws [e], the dispatcher hands
    [e] to [showErrorMessage], then posts
    [{ requestId: message.requestId, error: e }] and returns; nothing else
    is posted in the course of the dispatch, and the controller (subscriber
    slot and held subscriptions) is as it was before the message, so that
    the next message is dispatched as from the controller of before. *)
Theorem handler_failure_error_envelope
    (message : value) (cmd : string) (f : value -> M World value)
    (st st1 : state World) (e : value) :
  get message "cmd" = Returns (VStr cmd) ->
  member_of_this (postMessageParser (field message "payload")) cmd = Method f ->
  f (field message "payload") st = (Throws e, st1) ->
  let reply := error_envelope (field message "requestId") e in
  let st2 := emit (PostMessage reply) (emit (ShowErrorMessage e) st1) in
  postMessageParser message st = (Returns VUndef, st2) /\
  posted (since st st2) = [reply] /\
  this st2 = this st /\
  (forall next : value,
      postMessageParser next st2 =
      postMessageParser next {| this := this st; world := world st2; trace := trace st2 |}).
Proof.
  intros Hc Hm Hf reply st2. apply get_returns in Hc as [Hn Hc].
  destruct (member_clean_throw _ _ _ Hm _ _ _ _ Hf) as (T & evs & Et & P).
  split; [|split; [|split]];
    [| | |intro next; f_equal; subst st2; unfold emit; cbn [this world trace];
          rewrite T; reflexivity].
  - rewrite postMessageParser_unfold.
    eapply dispatch_throws; eauto. rewrite Hc. reflexivity.
  - rewrite (since_extension st st2 (evs ++ [ShowErrorMessage e; PostMessage reply])).
    + rewrite posted_app, P. reflexivity.
    + simpl. rewrite Et, <- !app_assoc. reflexivity.
  - exact T.
Qed.

End Dispatching.

(** ** The subscriber slot *)

Section Subscriber.

Context {World : Type} `{Collaborators World}.

Lemma member_orderly (reenter : M World value) (cmd : string)
      (f : value -> M World value) :
  member_of_this reenter cmd = Method f ->
  cmd <> "registerState" ->
  cmd <> "postMessageParser" ->
  forall payload, orderly (f payload).
Proof.
  unfold member_of_this. intros Hm Hr Hp.
  destruct (assoc cmd command_table) as [h|] eqn:Ht.
  - injection Hm as <-. eapply table_handlers_orderly; eauto.
  - destruct (String.eqb cmd "getWebviewPanel").
    { injection Hm as <-. intro. apply silent_orderly, silent_getWebviewPanel. }
    destruct (String.eqb cmd "dispose").
    { injection Hm as <-. intro. apply silent_orderly, silent_dispose. }
    destruct (String.eqb_spec cmd "postMessageParser"); [contradiction|].
    destruct (existsb (String.eqb cmd) data_fields); [discriminate|].
    destruct (inherited cmd) as [g|]; [|discriminate].
    injection Hm as <-. intro. apply silent_orderly, silent_lift.
Qed.

(** A dispatch leaves the controller as the member it called left it. *)
Lemma dispatch_this (reenter : M World value) (message : value) (name : string)
      (f : value -> M World value) (st st1 : state World) (o : outcome value) :
  nullish message = false ->
  ToString (field message "cmd") = Returns name ->
  member_of_this reenter name = Method f ->
  f (field message "payload") st = (o, st1) ->
  this (snd (dispatch reenter message st)) = this st1.
Proof.
  intros Hn Hc Hm Hf. destruct o.
  - erewrite dispatch_returns by eassumption. reflexivity.
  - erewrite dispatch_throws by eassumption. reflexivity.
Qed.

Lemma dispatch_keeps_this (reenter : M World value) (message : value) (st : state World) :
  ToString (field message "cmd") <> Returns "registerState" ->
  ToString (field message "cmd") <> Returns "postMessageParser" ->
  this (snd (dispatch reenter message st)) = this st.
Proof.
  intros Hr Hp. destruct (nullish message) eqn:Hn.
  - rewrite dispatch_nullish by assumption. reflexivity.
  - destruct (ToString (field message "cmd")) as [name|e] eqn:Hc.
    2:{ rewrite (dispatch_unprintable _ _ _ e) by assumption. reflexivity. }
    assert (Hr' : name <> "registerState") by congruence.
    assert (Hp' : name <> "postMessageParser") by congruence.
    destruct (member_of_this reenter name) as [f| |] eqn:Hm.
    + destruct (f (field message "payload") st) as [o st1] eqn:Hf.
      erewrite dispatch_this by eassumption.
      exact (proj1 (member_orderly _ _ _ Hm Hr' Hp' _ _ _ _ Hf)).
    + rewrite (dispatch_not_callable _ _ name); eauto using member_not_callable.
    + rewrite (dispatch_not_callable _ _ name); eauto using member_not_callable.
Qed.

(** The listener of state changes posts the answer to a [sendState] request
    made under the request id held in the slot. *)
Lemma listener_notifies (st : state World) : notifies st (stateRequestId (this st)).
Proof. split; reflexivity. Qed.

Lemma deliver_keeps_this (i : input) (st : state World) :
  writes_slot i = false -> this (snd (deliver i st)) = this st.
Proof.
  destruct i as [m| |]; intros Hw.
  - cbn [deliver]. rewrite postMessageParser_unfold.
    cbn [writes_slot] in Hw.
    apply dispatch_keeps_this; intros E; rewrite E in Hw;
      apply orb_false_iff in Hw as [Hr Hp]; discriminate.
  - reflexivity.
  - cbn [deliver].
    destruct (dispose VUndef st) as [o st'] eqn:E.
    exact (proj1 (silent_dispose _ _ _ _ E)).
Qed.

Lemma run_inputs_keeps_this (l : list input) (st : state World) :
  Forall (fun i => writes_slot i = false) l -> this (run_inputs l st) = this st.
Proof.
  intros Hl. revert st. induction Hl as [|i l Hi Hl IH]; intro st.
  - reflexivity.
  - cbn [run_inputs fold_left]. fold (run_inputs l (snd (deliver i st))).
    rewrite IH. apply deliver_keeps_this, Hi.
Qed.

Lemma run_inputs_app (l1 l2 : list input) (st : state World) :
  run_inputs (l1 ++ l2) st = run_inputs l2 (run_inputs l1 st).
Proof. unfold run_inputs. apply fold_left_app. Qed.

(** What a [registerState] message does to the controller. *)
Lemma registerState_writes (message requestId : value) (st : state World) :
  get message "cmd" = Returns (VStr "registerState") ->
  get (field message "payload") "requestId" = Returns requestId ->
  this (snd (postMessageParser message st)) =
    {| stateRequestId := requestId; disposable := disposable (this st) |}.
Proof.
  intros Hc Hp. apply get_returns in Hc as [Hn Hc].
  rewrite postMessageParser_unfold.
  erewrite dispatch_this; [| assumption | rewrite Hc; reflexivity | reflexivity | ].
  2:{ unfold registerState, bind, lift. rewrite Hp. reflexivity. }
  reflexivity.
Qed.

(** C4.  Before any registration a state-change notification is answered
    under the empty request id.  After a [registerState] message carrying
    [requestId], whatever came before it, every notification is answered
    under [requestId], for as long as no later input writes the slot. *)
Theorem state_notifier_uses_last_registration :
  (forall (w : World) (later : list input),
      Forall (fun i => writes_slot i = false) later ->
      notifies (run_inputs later (start w)) (VStr "")) /\
  (forall (st : state World) (earlier later : list input) (message requestId : value),
      get message "cmd" = Returns (VStr "registerState") ->
      get (field message "payload") "requestId" = Returns requestId ->
      Forall (fun i => writes_slot i = false) later ->
      notifies (run_inputs (earlier ++ Message message :: later) st) requestId).
Proof.
  split.
  - intros w later Hl.
    pose proof (listener_notifies (run_inputs later (start w))) as N.
    rewrite (run_inputs_keeps_this later (start w) Hl) in N. exact N.
  - intros st earlier later message requestId Hc Hp Hl.
    pose proof (listener_notifies (run_inputs (earlier ++ Message message :: later) st)) as N.
    rewrite run_inputs_app in N |- *. cbn [run_inputs fold_left] in N |- *.
    fold (run_inputs later (snd (deliver (Message message) (run_inputs earlier st)))) in N |- *.
    rewrite (run_inputs_keeps_this later _ Hl) in N. cbn [deliver] in N.
    rewrite (registerState_writes message requestId _ Hc Hp) in N. exact N.
Qed.

End Subscriber.

(** ** getLogEntries *)

Lemma assoc_set_field_same (k : string) (v : value) (l : list (string * value)) :
  assoc k (set_field k v l) = Some v.
Proof.
  induction l as [|[k' v'] l IH]; cbn [set_field assoc].
  - rewrite String.eqb_refl. reflexivity.
  - destruct (String.eqb k k') eqn:E; cbn [assoc]; rewrite ?String.eqb_refl, ?E; auto.
Qed.

Lemma assoc_set_field_other (k k' : string) (v : value) (l : list (string * value)) :
  k <> k' -> assoc k (set_field k' v l) = assoc k l.
Proof.
  intros Hk. induction l as [|[k2 v2] l IH]; cbn [set_field assoc].
  - destruct (String.eqb_spec k k'); [contradiction|reflexivity].
  - destruct (String.eqb_spec k' k2) as [<-|Hn]; cbn [assoc].
    + destruct (String.eqb_spec k k'); [contradiction|reflexivity].
    + destruct (String.eqb k k2); auto.
Qed.

Lemma strip_0x_zero (c : ascii) (r r' : string) :
  strip_0x (String c r) = Some r' -> is_decimal_digit c = true.
Proof.
  destruct c as [[] [] [] [] [] [] [] []]; cbn [strip_0x]; try discriminate;
    intros _; reflexivity.
Qed.

Lemma digits_no_digit (c : ascii) (r : string) :
  is_decimal_digit c = false -> digits 10 None (String c r) = None.
Proof.
  unfold is_decimal_digit. cbn [digits].
  destruct (digit_value c) as [d|]; [|reflexivity]. intros ->. reflexivity.
Qed.

(** Where [parseInt] finds no digit to start from, it gives [NaN], with or
    without the radix 10. *)
Lemma parseInt_no_leading_digit (s : string) :
  no_leading_digit s = true ->
  parseInt (VStr s) 0 = Returns VNaN /\ parseInt (VStr s) 10 = Returns VNaN.
Proof.
  unfold no_leading_digit, parseInt. cbn [ToString].
  destruct (strip_sign (trim_start s)) as [sign S]. cbn [snd].
  destruct S as [|c r].
  - intros _. split; reflexivity.
  - intros Hd. apply negb_true_iff in Hd. split.
    + cbn [Z.eqb orb].
      destruct (strip_0x (String c r)) as [r'|] eqn:E.
      * apply strip_0x_zero in E. congruence.
      * rewrite digits_no_digit by assumption. reflexivity.
    + change ((10 =? 0) || ((2 <=? 10) && (10 <=? 36))) with true.
      change ((10 =? 0) || (10 =? 16)) with false. cbv iota.
      rewrite digits_no_digit by assumption. reflexivity.
Qed.

(** [parseInt] throws what [ToString] throws, and nothing else. *)
Lemma parseInt_printable (v : value) (radix : Z) :
  printable v = true -> exists x, parseInt v radix = Returns x.
Proof.
  unfold printable, parseInt. destruct (ToString v) as [s|e]; [intros _|discriminate].
  destruct (strip_sign (trim_start s)) as [sign S].
  destruct ((radix =? 0) || ((2 <=? radix) && (radix <=? 36))); [|eauto].
  destruct (if (radix =? 0) || (radix =? 16)
            then match strip_0x S with
                 | Some S' => (16, S')
                 | None => (if radix =? 0 then 10 else radix, S)
                 end
            else (radix, S)) as [R S'].
  destruct (digits R None S'); eauto.
Qed.

Lemma parseInt_unprintable (v : value) (radix : Z) (e : value) :
  ToString v = Throws e -> parseInt v radix = Throws e.
Proof. unfold parseInt. intros ->. reflexivity. Qed.

(** *** Property names that are indices *)

Lemma to_uint_nonnil (i : nat) : Nat.to_uint i <> Decimal.Nil.
Proof.
  intros E. pose proof (DecimalNat.Unsigned.to_of (Nat.to_uint i)) as T.
  rewrite DecimalNat.Unsigned.of_to, E in T. discriminate T.
Qed.




Section LogEntries.

Context {World : Type} `{Collaborators World}.

(** The query [getLogEntries] makes for a payload that is not [null] or
    [undefined], whose numeric fields [parseInt] turns into the given bounds
    and whose [file], if any, [Uri.file] turns into [file]; and what it does
    with the answer. *)
Lemma getLogEntries_run (args startIndex stopIndex lineNumber file : value)
      (st : state World) :
  nullish args = false ->
  (if truthy (field args "startIndex") then parseInt (field args "startIndex") 0
   else Returns (VNum 0)) = Returns startIndex ->
  (if truthy (field args "stopIndex") then parseInt (field args "stopIndex") 0
   else Returns (VNum 30)) = Returns stopIndex ->
  (if truthy (field args "line") then parseInt (field args "line") 10
   else Returns VUndef) = Returns lineNumber ->
  (if truthy (field args "file") then Uri_file (field args "file") else Returns VUndef)
    = Returns file ->
  let searchText :=
    if is_literal (field args "searchText") "" then VUndef else field args "searchText" in
  let author :=
    if is_string (field args "authorFilter") then field args "authorFilter" else VUndef in
  let query :=
    GitGetLogEntries startIndex stopIndex (field args "branchName") searchText
                     file lineNumber author in
  getLogEntries args st =
    match respond query (world st) with
    | (Returns entries, w) =>
        (Returns (VObj (set_field "stopIndex" stopIndex
                         (set_field "startIndex" startIndex (own_properties entries)))),
         {| this := this st; world := w; trace := trace st ++ [Called query] |})
    | (Throws e, w) =>
        (Throws e, {| this := this st; world := w; trace := trace st ++ [Called query] |})
    end.
Proof.
  intros Hn Hstart Hstop Hline Hfile. cbv zeta.
  unfold getLogEntries, bind, lift, invoke, ret. rewrite !(get_field args) by assumption.
  rewrite Hstart, Hstop, Hline, Hfile.
  replace (is_string (field args "searchText") && is_literal (field args "searchText") "")
    with (is_literal (field args "searchText") "")
    by (destruct (field args "searchText"); reflexivity).
  destruct (respond _ (world st)) as [[entries|e] w]; reflexivity.
Qed.

(** The bounds [parseInt] gives when every numeric field has a string
    form. *)
Lemma parsable_bounds (args : value) :
  parsable args = true ->
  exists startIndex stopIndex lineNumber,
    (if truthy (field args "startIndex") then parseInt (field args "startIndex") 0
     else Returns (VNum 0)) = Returns startIndex /\
    (if truthy (field args "stopIndex") then parseInt (field args "stopIndex") 0
     else Returns (VNum 30)) = Returns stopIndex /\
    (if truthy (field args "line") then parseInt (field args "line") 10
     else Returns VUndef) = Returns lineNumber.
Proof.
  unfold parsable, numeric_fields. cbn [forallb]. rewrite !andb_true_iff.
  intros (H1 & H2 & H3 & _).
  assert (P : forall a radix default,
             implb (truthy a) (printable a) = true ->
             exists x, (if truthy a then parseInt a radix else Returns default) = Returns x).
  { intros a radix default Ha. destruct (truthy a); [|eauto].
    apply parseInt_printable, Ha. }
  destruct (P _ 0 (VNum 0) H1) as [x1 E1].
  destruct (P _ 0 (VNum 30) H2) as [x2 E2].
  destruct (P _ 10 VUndef H3) as [x3 E3].
  exists x1, x2, x3. auto.
Qed.



(** C6, as the code has it.  A string in [startIndex], [stopIndex] or
    [line] with no digit where parsing starts raises no parse error:
    [parseInt] turns it into [NaN], and, the numeric fields having each a
    string form, the git service is queried with [NaN] in that place and the
    request is answered as the query goes: with a success envelope that
    echoes the bounds, [NaN] included, when the query returns, with an error
    envelope carrying the query's exception when it throws. *)
Theorem getLogEntries_forwards_NaN
    (message args file : value) (k s : string) (st : state World) :
  get message "cmd" = Returns (VStr "getLogEntries") ->
  field message "payload" = args ->
  In k numeric_fields ->
  field args k = VStr s ->
  s <> "" ->
  no_leading_digit s = true ->
  parsable args = true ->
  (if truthy (field args "file") then Uri_file (field args "file") else Returns VUndef)
    = Returns file ->
  exists startIndex stopIndex branch searchText lineNumber author,
    let query := GitGetLogEntries startIndex stopIndex branch searchText
                                  file lineNumber author in
    let st' w := {| this := this st; world := w; trace := trace st ++ [Called query] |} in
    let requestId := field message "requestId" in
    ((k = "startIndex" -> startIndex = VNaN) /\
     (k = "stopIndex" -> stopIndex = VNaN) /\
     (k = "line" -> lineNumber = VNaN)) /\
    match respond query (world st) with
    | (Returns entries, w) =>
        exists r,
          getLogEntries args st = (Returns (VObj r), st' w) /\
          assoc "startIndex" r = Some startIndex /\
          assoc "stopIndex" r = Some stopIndex /\
          postMessageParser message st =
            (Returns VUndef,
             emit (PostMessage (success_envelope requestId (VObj r))) (st' w))
    | (Throws e, w) =>
        getLogEntries args st = (Throws e, st' w) /\
        postMessageParser message st =
          (Returns VUndef,
           emit (PostMessage (error_envelope requestId e))
                (emit (ShowErrorMessage e) (st' w)))
    end.
Proof.
  intros Hc Hp Hk Hf Hs Hd Hpars Hfile. apply get_returns in Hc as [Hm Hc].
  assert (Hn : nullish args = false) by (destruct args; try reflexivity; discriminate).
  assert (Ht : truthy (VStr s) = true).
  { cbn [truthy]. destruct (String.eqb_spec s ""); [contradiction|reflexivity]. }
  destruct (parseInt_no_leading_digit s Hd) as [P0 P10].
  assert (Hcmd : ToString (field message "cmd") = Returns "getLogEntries")
    by (rewrite Hc; reflexivity).
  assert (Hmem : member_of_this (postMessageParser (field message "payload"))
                   "getLogEntries" = Method getLogEntries) by reflexivity.
  destruct (parsable_bounds args Hpars)
    as (startIndex & stopIndex & lineNumber & E1 & E2 & E3).
  pose proof (getLogEntries_run args _ _ _ _ st Hn E1 E2 E3 Hfile) as Hrun.
  cbv zeta in Hrun.
  match type of Hrun with
  | context [respond (GitGetLogEntries ?a ?b ?c ?d ?e ?f ?g) (world st)] =>
      exists a, b, c, d, f, g
  end.
  cbv zeta. split.
  - destruct Hk as [<-|[<-|[<-|[]]]]; repeat split; intros E;
      try discriminate E.
    + rewrite Hf, Ht, P0 in E1. congruence.
    + rewrite Hf, Ht, P0 in E2. congruence.
    + rewrite Hf, Ht, P10 in E3. congruence.
  - destruct (respond _ (world st)) as [[entries|e] w].
    + eexists. split; [exact Hrun|]. split; [|split].
      * rewrite assoc_set_field_other by discriminate. apply assoc_set_field_same.
      * apply assoc_set_field_same.
      * rewrite postMessageParser_unfold.
        eapply dispatch_returns; eauto. rewrite Hp. exact Hrun.
    + split; [exact Hrun|].
      rewrite postMessageParser_unfold.
      eapply dispatch_throws; eauto. rewrite Hp. exact Hrun.
Qed.

End LogEntries.

(** ** Disposal *)

Section Disposal.

Context {World : Type} `{Collaborators World}.

Lemma forEach_dispose_run (held : list subscription) :
  (forall s w, exists v w', respond (SubscriptionDispose s) w = (Returns v, w')) ->
  forall st : state World,
  exists w',
    forEach held (fun d => invoke (SubscriptionDispose d)) st =
      (Returns VUndef,
       {| this := this st; world := w'; trace := trace st ++ released held |}).
Proof.
  intros Hcalm. induction held as [|d held IH]; intro st.
  - exists (world st). cbn. rewrite app_nil_r. destruct st; reflexivity.
  - destruct (Hcalm d (world st)) as (v & w1 & E1).
    cbn [forEach]. unfold bind at 1. unfold invoke at 1. rewrite E1.
    destruct (IH {| this := this st; world := w1;
                    trace := trace st ++ [Called (SubscriptionDispose d)] |})
      as (w2 & E2).
    exists w2. rewrite E2. cbn. rewrite <- app_assoc. reflexivity.
Qed.

Lemma dispose_run (a : value) (st : state World) :
  (forall s w, exists v w', respond (SubscriptionDispose s) w = (Returns v, w')) ->
  exists w',
    dispose a st =
      (Returns VUndef,
       {| this := this st; world := w';
          trace := trace st ++ released (disposable (this st)) |}).
Proof.
  intros Hcalm. unfold dispose, bind, read_this.
  apply forEach_dispose_run, Hcalm.
Qed.

Lemma release_count_constructed (s : subscription) (n : nat) :
  release_count s (List.concat (repeat (released (disposable constructed)) n)) = n.
Proof.
  induction n as [|n IH]; [reflexivity|].
  cbn [repeat List.concat]. rewrite release_count_app, IH. destruct s; reflexivity.
Qed.

(** C7, as the code has it.  As long as no subscription throws when it is
    disposed of, every call of [dispose] returns, asks each held
    subscription in turn to dispose, and leaves the controller and its list
    of held subscriptions as they were: after [n] calls each of the two
    subscriptions of the constructor has been asked [n] times. *)
Theorem dispose_releases_on_every_call :
  (forall s w, exists v w', respond (SubscriptionDispose s) w = (Returns v, w')) ->
  forall (n : nat) (st : state World),
    let st' := run_inputs (repeat Dispose n) st in
    (forall a, fst (dispose a st') = Returns VUndef) /\
    this st' = this st /\
    trace st' = trace st ++ List.concat (repeat (released (disposable (this st))) n) /\
    (disposable (this st) = disposable constructed ->
     forall s, release_count s (since st st') = n).
Proof.
  intros Hcalm n st st'.
  assert (Hrun : this st' = this st /\
                 trace st' = trace st ++ List.concat (repeat (released (disposable (this st))) n)).
  { subst st'. revert st. induction n as [|n IH]; intro st.
    - cbn. rewrite app_nil_r. auto.
    - cbn [repeat run_inputs fold_left deliver].
      fold (run_inputs (repeat Dispose n) (snd (dispose VUndef st))).
      destruct (dispose_run VUndef st Hcalm) as (w' & E). rewrite E. cbn [snd].
      destruct (IH {| this := this st; world := w';
                      trace := trace st ++ released (disposable (this st)) |})
        as [T Tr].
      split; [exact T|]. rewrite Tr. cbn [this trace List.concat].
      rewrite <- app_assoc. reflexivity. }
  destruct Hrun as [T Tr]. repeat split; auto.
  - intro a. destruct (dispose_run a st' Hcalm) as (w' & E). rewrite E. reflexivity.
  - intros Hc s. rewrite (since_extension _ _ _ Tr), Hc.
    apply release_count_constructed.
Qed.

End Disposal.

(** ** doAction: new tag, new branch *)

(** A string without a percent sign is its own decoding. *)
Lemma decode_plain (s : string) :
  forallb (fun c => negb (Ascii.eqb c "%")) (list_ascii_of_string s) = true ->
  decode [] s = Some s.
Proof.
  induction s as [|c s IH]; [reflexivity|].
  cbn [list_ascii_of_string forallb]. intros Hs.
  apply andb_true_iff in Hs as [Hc Hs]. specialize (IH Hs).
  destruct c as [[] [] [] [] [] [] [] []]; try discriminate Hc;
    cbn [decode]; rewrite IH; reflexivity.
Qed.

Lemma decodeURIComponent_plain (s : string) :
  forallb (fun c => negb (Ascii.eqb c "%")) (list_ascii_of_string s) = true ->
  decodeURIComponent (VStr s) = Returns s.
Proof.
  intros Hs. unfold decodeURIComponent. cbn [ToString].
  rewrite (decode_plain s Hs). reflexivity.
Qed.

Section Actions.

Context {World : Type} `{Collaborators World}.

(** C8, as the code has it.  For the action [newtag] (resp. [newbranch]),
    with [v] what [decodeURIComponent] makes of the payload's [value], [h]
    the full hash of the log entry and [refs] its array of refs: the tag
    (branch) is created with [(v, h)], and once that has returned the
    handler returns the log entry it was given with
    [{ type: Tag, name: v }] (resp. [{ type: Head, name: v }]) appended to
    its refs and nothing else changed.  The git service is asked for the
    root and the current branch and for the creation, not for the commit. *)
Theorem doAction_creates_decoded_ref
    (args logEntry h : value) (action : string) (type : value)
    (create : value -> value -> call) (v : string) (refs : list value)
    (st : state World) (g b x : value) (w1 w2 w3 : World) :
  (action, type, create) = ("newtag", RefType_Tag, GitCreateTag) \/
  (action, type, create) = ("newbranch", RefType_Head, GitCreateBranch) ->
  field args "name" = VStr action ->
  decodeURIComponent (field args "value") = Returns v ->
  field args "logEntry" = logEntry ->
  get (field logEntry "hash") "full" = Returns h ->
  field logEntry "refs" = VArr refs ->
  respond GitGetGitRoot (world st) = (Returns g, w1) ->
  respond GitGetCurrentBranch w1 = (Returns b, w2) ->
  respond (create (VStr v) h) w2 = (Returns x, w3) ->
  let ref := VObj [("type", type); ("name", VStr v)] in
  let result := with_field logEntry "refs" (VArr (refs ++ [ref])) in
  doAction args st =
    (Returns result,
     {| this := this st; world := w3;
        trace := trace st ++ [Called GitGetGitRoot; Called GitGetCurrentBranch;
                              Called (create (VStr v) h)] |}) /\
  field result "refs" = VArr (refs ++ [ref]) /\
  (forall k, k <> "refs" -> field result k = field logEntry k).
Proof.
  intros Hact Hname Hdec Hlog Hhash Hrefs Hg Hb Hx ref result.
  assert (Hna : nullish args = false).
  { destruct args; try reflexivity; discriminate. }
  assert (Hnl : nullish logEntry = false).
  { destruct logEntry; try reflexivity; discriminate. }
  split; [|split].
  - unfold doAction, bind, invoke, push_ref, lift, ret.
    rewrite Hg. cbn [this world trace]. rewrite Hb. cbn [this world trace].
    rewrite !(get_field args) by assumption. rewrite Hname, Hdec, Hlog.
    rewrite !(get_field logEntry) by assumption. rewrite Hhash, Hrefs.
    destruct Hact as [E|E]; injection E as -> -> ->;
      cbn [is_literal String.eqb Ascii.eqb Bool.eqb]; cbn [this world trace];
      rewrite Hx; cbn [push]; subst result ref;
      rewrite <- !app_assoc; reflexivity.
  - subst result. destruct logEntry; try discriminate.
    cbn [with_field field]. rewrite assoc_set_field_same. reflexivity.
  - intros k Hk. subst result. destruct logEntry; try reflexivity.
    cbn [with_field field]. rewrite assoc_set_field_other by assumption. reflexivity.
Qed.

End Actions.

(** ** getAvatars *)

Lemma find_first {A} (f : A -> bool) (before : list A) (p : A) (after : list A) :
  (forall q, In q before -> f q = false) ->
  f p = true ->
  find f (before ++ p :: after) = Some p.
Proof.
  intros Hb Hp. induction before as [|q before IH]; cbn [app find].
  - rewrite Hp. reflexivity.
  - rewrite (Hb q) by (left; reflexivity). apply IH.
    intros q' Hq. apply Hb. right. exact Hq.
Qed.

Lemma find_nowhere {A} (f : A -> bool) (l : list A) :
  (forall q, In q l -> f q = false) -> find f l = None.
Proof.
  intros Hl. induction l as [|q l IH]; cbn [find]; [reflexivity|].
  rewrite (Hl q) by (left; reflexivity). apply IH.
  intros q' Hq. apply Hl. right. exact Hq.
Qed.

Section Avatars.

Context {World : Type} `{Collaborators World}.

(** C9.  With an origin type resolved, [getAvatars] hands back what
    [getAvatars] of the first provider supporting that type gives; when
    no provider supports it, what the first provider supporting
    [GitOriginType.any] gives, such a provider being in the set. *)
Theorem getAvatars_selects_provider
    (args originType : value) (st : state World) (w1 : World) :
  respond GitGetOriginType (world st) = (Returns originType, w1) ->
  truthy originType = true ->
  let st1 := {| this := this st; world := w1;
                trace := trace st ++ [Called GitGetOriginType] |} in
  (forall before p after,
      avatarProviders = before ++ p :: after ->
      (forall q, In q before -> supported q originType = false) ->
      supported p originType = true ->
      getAvatars args st = invoke (ProviderGetAvatars (pid p)) st1) /\
  ((forall q, In q avatarProviders -> supported q originType = false) ->
   forall before g after,
      avatarProviders = before ++ g :: after ->
      (forall q, In q before -> supported q GitOriginType_any = false) ->
      supported g GitOriginType_any = true ->
      getAvatars args st = invoke (ProviderGetAvatars (pid g)) st1).
Proof.
  intros Ho Ht st1. split.
  - intros before p after Hl Hb Hp.
    unfold getAvatars, bind. unfold invoke at 1. rewrite Ho, Ht. cbn [negb]. cbv zeta.
    rewrite Hl.
    rewrite (find_first (fun item => supported item originType) before p after Hb Hp).
    reflexivity.
  - intros Hnone before g after Hl Hb Hg.
    unfold getAvatars, bind. unfold invoke at 1. rewrite Ho, Ht. cbn [negb]. cbv zeta.
    rewrite (find_nowhere (fun item => supported item originType) avatarProviders Hnone).
    rewrite Hl.
    rewrite (find_first (fun item => supported item GitOriginType_any) before g after Hb Hg).
    reflexivity.
Qed.

(** C10.  With no origin type resolved, a [getAvatars] message makes the
    controller post [{ cmd: 'getAvatarsResult', error: 'No origin type
    found' }] and then the success envelope
    [{ requestId: message.requestId, payload: undefined }]: two messages,
    and no error is shown. *)
Theorem getAvatars_without_origin_posts_twice
    (message originType : value) (st : state World) (w1 : World) :
  get message "cmd" = Returns (VStr "getAvatars") ->
  respond GitGetOriginType (world st) = (Returns originType, w1) ->
  truthy originType = false ->
  let direct := VObj [("cmd", VStr "getAvatarsResult");
                      ("error", VStr "No origin type found")] in
  let reply := success_envelope (field message "requestId") VUndef in
  let st' := {| this := this st; world := w1;
                trace := trace st ++ [Called GitGetOriginType; PostMessage direct;
                                      PostMessage reply] |} in
  postMessageParser message st = (Returns VUndef, st') /\
  posted (since st st') = [direct; reply] /\
  shown (since st st') = [].
Proof.
  intros Hc Ho Ht direct reply st'. apply get_returns in Hc as [Hn Hc].
  split; [|split].
  - rewrite postMessageParser_unfold.
    erewrite dispatch_returns with (f := getAvatars) (result := VUndef);
      [ | assumption | rewrite Hc; reflexivity | reflexivity | ].
    2:{ unfold getAvatars, bind. unfold invoke at 1. rewrite Ho, Ht. reflexivity. }
    subst st' reply direct. unfold emit. cbn [this world trace].
    rewrite <- !app_assoc. reflexivity.
  - erewrite since_extension by reflexivity. reflexivity.
  - erewrite since_extension by reflexivity. reflexivity.
Qed.

End Avatars.

(** ** The theorems at work on the scripted world *)

#[local] Existing Instance Scripted.

(** [getBranches] answered with one branch. *)
Lemma dispatch_success_envelope_witness :
  let message := inbound "getBranches" (VStr "r1") (VObj []) in
  let st := start (World := script) [Returns (VArr [VStr "main"])] in
  let st1 := {| this := constructed; world := []; trace := [Called GitGetBranches] |} in
  let reply := success_envelope (VStr "r1") (VArr [VStr "main"]) in
  let st2 := emit (PostMessage reply) st1 in
  postMessageParser (H := Scripted) message st = (Returns VUndef, st2) /\
  envelopes (since st st2) = [reply] /\
  ("getBranches" <> "getAvatars" -> posted (since st st2) = [reply]).
Proof.
  exact (dispatch_success_envelope (H := Scripted)
           (inbound "getBranches" (VStr "r1") (VObj [])) "getBranches" getBranches
           (start [Returns (VArr [VStr "main"])])
           {| this := constructed; world := []; trace := [Called GitGetBranches] |}
           (VArr [VStr "main"]) eq_refl eq_refl eq_refl).
Defined.

(** A name that is no member of the controller. *)
Lemma unresolved_command_error_envelope_witness :
  let message := inbound "checkout" (VStr "r1") (VObj []) in
  let st := start (World := script) [] in
  let reply := error_envelope (VStr "r1") TypeError in
  let st' := emit (PostMessage reply) (emit (ShowErrorMessage TypeError) st) in
  postMessageParser (H := Scripted) message st = (Returns VUndef, st') /\
  posted (since st st') = [reply].
Proof.
  refine (unresolved_command_error_envelope (H := Scripted)
            (inbound "checkout" (VStr "r1") (VObj [])) "checkout" (start [])
            eq_refl eq_refl _ eq_refl).
  cbn [In]. intros [E|[E|[E|[]]]]; discriminate E.
Defined.

(** [getBranches] failing in the git service. *)
Lemma handler_failure_error_envelope_witness :
  let message := inbound "getBranches" (VStr "r1") (VObj []) in
  let st := start (World := script) [Throws (VStr "not a repository")] in
  let st1 := {| this := constructed; world := []; trace := [Called GitGetBranches] |} in
  let reply := error_envelope (VStr "r1") (VStr "not a repository") in
  let st2 := emit (PostMessage reply)
                  (emit (ShowErrorMessage (VStr "not a repository")) st1) in
  postMessageParser (H := Scripted) message st = (Returns VUndef, st2) /\
  posted (since st st2) = [reply] /\
  this st2 = this st /\
  (forall next : value,
      postMessageParser next st2 =
      postMessageParser next {| this := this st; world := world st2; trace := trace st2 |}).
Proof.
  exact (handler_failure_error_envelope (H := Scripted)
           (inbound "getBranches" (VStr "r1") (VObj [])) "getBranches" getBranches
           (start [Throws (VStr "not a repository")])
           {| this := constructed; world := []; trace := [Called GitGetBranches] |}
           (VStr "not a repository") eq_refl eq_refl eq_refl).
Defined.

(** Registration under "A", a notification, registration under "B", then a
    notification and a [getBranches] request: the next notification is
    answered under "B". *)
Lemma state_notifier_uses_last_registration_witness :
  let register r := Message (inbound "registerState" (VStr "q") (VObj [("requestId", VStr r)])) in
  let later := [StateChanged; Message (inbound "getBranches" (VStr "r1") (VObj []))] in
  notifies (H := Scripted)
    (run_inputs ([register "A"; StateChanged] ++ register "B" :: later)
                (start (World := script) []))
    (VStr "B").
Proof.
  refine (proj2 (state_notifier_uses_last_registration (H := Scripted))
            (start []) _ _
            (inbound "registerState" (VStr "q") (VObj [("requestId", VStr "B")]))
            (VStr "B") eq_refl eq_refl _).
  repeat constructor.
Defined.


(** [startIndex: "abc"]. *)
Lemma getLogEntries_forwards_NaN_witness :
  let args := VObj [("startIndex", VStr "abc")] in
  let message := inbound "getLogEntries" (VStr "r1") args in
  let st := start (World := script) [Returns (VObj [("items", VArr [])])] in
  exists startIndex stopIndex branch searchText lineNumber author,
    let query := GitGetLogEntries startIndex stopIndex branch searchText
                                  VUndef lineNumber author in
    let st' w := {| this := this st; world := w; trace := trace st ++ [Called query] |} in
    let requestId := field message "requestId" in
    (("startIndex" = "startIndex" -> startIndex = VNaN) /\
     ("startIndex" = "stopIndex" -> stopIndex = VNaN) /\
     ("startIndex" = "line" -> lineNumber = VNaN)) /\
    match respond (Collaborators := Scripted) query (world st) with
    | (Returns entries, w) =>
        exists r,
          getLogEntries args st = (Returns (VObj r), st' w) /\
          assoc "startIndex" r = Some startIndex /\
          assoc "stopIndex" r = Some stopIndex /\
          postMessageParser message st =
            (Returns VUndef,
             emit (PostMessage (success_envelope requestId (VObj r))) (st' w))
    | (Throws e, w) =>
        getLogEntries args st = (Throws e, st' w) /\
        postMessageParser message st =
          (Returns VUndef,
           emit (PostMessage (error_envelope requestId e))
                (emit (ShowErrorMessage e) (st' w)))
    end.
Proof.
  refine (getLogEntries_forwards_NaN (H := Scripted)
            (inbound "getLogEntries" (VStr "r1") (VObj [("startIndex", VStr "abc")]))
            (VObj [("startIndex", VStr "abc")]) VUndef "startIndex" "abc"
            (start [Returns (VObj [("items", VArr [])])])
            eq_refl eq_refl (or_introl eq_refl) eq_refl _ eq_refl eq_refl eq_refl).
  intro E. discriminate E.
Defined.

(** Three calls of [dispose] among calm collaborators. *)
Lemma dispose_releases_on_every_call_witness :
  let st := start (World := unit) tt in
  let st' := run_inputs (H := Calm) (repeat Dispose 3) st in
  (forall a, fst (dispose (H := Calm) a st') = Returns VUndef) /\
  this st' = this st /\
  trace st' = trace st ++ List.concat (repeat (released (disposable (this st))) 3) /\
  (disposable (this st) = disposable constructed ->
   forall s, release_count s (since st st') = 3%nat).
Proof.
  refine (dispose_releases_on_every_call (H := Calm) _ 3%nat (start tt)).
  intros s w. exists VUndef, w. reflexivity.
Defined.

(** A tag named by an escaped value. *)
Lemma doAction_creates_decoded_ref_witness :
  let logEntry := VObj [("hash", VObj [("full", VStr "abc")]); ("refs", VArr [])] in
  let args := VObj [("name", VStr "newtag"); ("value", VStr "v%2E1");
                    ("logEntry", logEntry)] in
  let st := start (World := script) [] in
  let ref := VObj [("type", RefType_Tag (Collaborators := Scripted)); ("name", VStr "v.1")] in
  let result := with_field logEntry "refs" (VArr ([] ++ [ref])) in
  doAction (H := Scripted) args st =
    (Returns result,
     {| this := this st; world := [];
        trace := trace st ++ [Called GitGetGitRoot; Called GitGetCurrentBranch;
                              Called (GitCreateTag (VStr "v.1") (VStr "abc"))] |}) /\
  field result "refs" = VArr ([] ++ [ref]) /\
  (forall k, k <> "refs" -> field result k = field logEntry k).
Proof.
  exact (doAction_creates_decoded_ref (H := Scripted)
           (VObj [("name", VStr "newtag"); ("value", VStr "v%2E1");
                  ("logEntry", VObj [("hash", VObj [("full", VStr "abc")]);
                                     ("refs", VArr [])])])
           (VObj [("hash", VObj [("full", VStr "abc")]); ("refs", VArr [])])
           (VStr "abc") "newtag" (VNum 2) GitCreateTag "v.1" []
           (start []) VUndef VUndef VUndef [] [] []
           (or_introl eq_refl) eq_refl eq_refl eq_refl eq_refl eq_refl
           eq_refl eq_refl eq_refl).
Defined.

(** Origin type 2 has a provider of its own, the first of the set; origin
    type 3 has none and falls to the second, which supports any. *)
Lemma getAvatars_selects_provider_witness :
  let own := {| pid := 0; supported := fun t => match t with VNum 2 => true | _ => false end |} in
  let generic := {| pid := 1; supported := fun t => match t with VNum 1 => true | _ => false end |} in
  (let st := start (World := script) [Returns (VNum 2); Returns (VArr [VStr "avatar"])] in
   getAvatars (H := Scripted) VUndef st =
     invoke (H := Scripted) (ProviderGetAvatars (pid own))
       {| this := this st; world := [Returns (VArr [VStr "avatar"])];
          trace := trace st ++ [Called GitGetOriginType] |}) /\
  (let st := start (World := script) [Returns (VNum 3); Returns (VArr [VStr "avatar"])] in
   getAvatars (H := Scripted) VUndef st =
     invoke (H := Scripted) (ProviderGetAvatars (pid generic))
       {| this := this st; world := [Returns (VArr [VStr "avatar"])];
          trace := trace st ++ [Called GitGetOriginType] |}).
Proof.
  intros own generic. split.
  - refine (proj1 (getAvatars_selects_provider (H := Scripted) VUndef (VNum 2)
                     (start [Returns (VNum 2); Returns (VArr [VStr "avatar"])])
                     [Returns (VArr [VStr "avatar"])] eq_refl eq_refl)
                  [] own [generic] eq_refl _ eq_refl).
    intros q [].
  - refine (proj2 (getAvatars_selects_provider (H := Scripted) VUndef (VNum 3)
                     (start [Returns (VNum 3); Returns (VArr [VStr "avatar"])])
                     [Returns (VArr [VStr "avatar"])] eq_refl eq_refl)
                  _ [own] generic [] eq_refl _ eq_refl).
    + intros q [<-|[<-|[]]]; reflexivity.
    + intros q [<-|[]]. reflexivity.
Defined.

(** The git service resolves no origin type. *)
Lemma getAvatars_without_origin_posts_twice_witness :
  let message := inbound "getAvatars" (VStr "r1") (VObj []) in
  let st := start (World := script) [Returns VUndef] in
  let direct := VObj [("cmd", VStr "getAvatarsResult");
                      ("error", VStr "No origin type found")] in
  let reply := success_envelope (VStr "r1") VUndef in
  let st' := {| this := this st; world := [];
                trace := trace st ++ [Called GitGetOriginType; PostMessage direct;
                                      PostMessage reply] |} in
  postMessageParser (H := Scripted) message st = (Returns VUndef, st') /\
  posted (since st st') = [direct; reply] /\
  shown (since st st') = [].
Proof.
  exact (getAvatars_without_origin_posts_twice (H := Scripted)
           (inbound "getAvatars" (VStr "r1") (VObj [])) VUndef
           (start [Returns VUndef]) [] eq_refl eq_refl eq_refl).
Defined.

(** ** Where the wording and the code part *)

(** [getWebviewPanel] is no command of the table, yet a message that names
    it is answered with a success envelope carrying the panel; one that
    names [dispose] has the subscriptions disposed of and is answered with
    a success envelope too. *)
Lemma unknown_command_counterexample :
  let st := start (World := script) [] in
  assoc "getWebviewPanel" (command_table (H := Scripted)) = None /\
  postMessageParser (inbound "getWebviewPanel" (VStr "r1") (VObj [])) st =
    (Returns VUndef,
     emit (PostMessage (success_envelope (VStr "r1") webviewPanel)) st) /\
  assoc "dispose" (command_table (H := Scripted)) = None /\
  trace (snd (postMessageParser (inbound "dispose" (VStr "r2") (VObj [])) st)) =
    [Called (SubscriptionDispose OnDidReceiveMessage);
     Called (SubscriptionDispose OnStateChanged);
     PostMessage (success_envelope (VStr "r2") VUndef)] /\
  ~ unknown_command_claim.
Proof.
  cbv zeta. repeat split.
  intros C.
  destruct (C script Scripted "getWebviewPanel" (VStr "r1") (VObj []) (start []) eq_refl)
    as (e & st' & E & En).
  vm_compute in E. injection E as <-. vm_compute in En. discriminate En.
Qed.

(** [startIndex: "abc"] reaches the git service as [NaN], and the request is
    answered with a success envelope. *)
Lemma malformed_number_counterexample :
  let args := VObj [("startIndex", VStr "abc")] in
  let st := start (World := script) [Returns (VObj [("items", VArr [])])] in
  numeral "abc" = false /\
  postMessageParser (inbound "getLogEntries" (VStr "r1") args) st =
    (Returns VUndef,
     {| this := constructed; world := [];
        trace :=
          [Called (GitGetLogEntries VNaN (VNum 30) VUndef VUndef VUndef VUndef VUndef);
           PostMessage
             (success_envelope (VStr "r1")
                (VObj [("items", VArr []); ("startIndex", VNaN);
                       ("stopIndex", VNum 30)]))] |}) /\
  ~ malformed_number_claim.
Proof.
  cbv zeta. repeat split.
  intros C.
  destruct (C script Scripted [("startIndex", VStr "abc")] "startIndex" "abc" (VStr "r1")
              (start [Returns (VObj [("items", VArr [])])])
              (or_introl eq_refl) eq_refl eq_refl)
    as (e & st' & E & En & Ec).
  vm_compute in E. injection E as <-. vm_compute in Ec. discriminate Ec.
Qed.

(** Two calls of [dispose] ask each subscription twice. *)
Lemma dispose_once_counterexample :
  let st := start (World := script) [] in
  calls (trace (run_inputs [Dispose; Dispose] st)) =
    [SubscriptionDispose OnDidReceiveMessage; SubscriptionDispose OnStateChanged;
     SubscriptionDispose OnDidReceiveMessage; SubscriptionDispose OnStateChanged] /\
  release_count OnDidReceiveMessage (since st (run_inputs [Dispose; Dispose] st)) = 2%nat /\
  ~ dispose_once_claim.
Proof.
  cbv zeta. repeat split.
  intros C.
  specialize (C script Scripted (start []) 1%nat OnDidReceiveMessage (or_introl eq_refl)).
  vm_compute in C. discriminate C.
Qed.

(** The value "%41" names the tag "A". *)
Lemma doAction_create_counterexample :
  let logEntry := VObj [("hash", VObj [("full", VStr "abc")]); ("refs", VArr [])] in
  let args := VObj [("name", VStr "newtag"); ("value", VStr "%41");
                    ("logEntry", logEntry)] in
  doAction args (start (World := script) []) =
    (Returns (VObj [("hash", VObj [("full", VStr "abc")]);
                    ("refs", VArr [VObj [("type", VNum 2); ("name", VStr "A")]])]),
     {| this := constructed; world := [];
        trace := [Called GitGetGitRoot; Called GitGetCurrentBranch;
                  Called (GitCreateTag (VStr "A") (VStr "abc"))] |}) /\
  ~ doAction_create_claim.
Proof.
  cbv zeta. split; [reflexivity|].
  intros C.
  destruct (C script Scripted "newtag" (VNum 2) GitCreateTag "%41" (VStr "abc") []
              (start []) VUndef VUndef VUndef [] [] []
              (or_introl eq_refl) eq_refl eq_refl eq_refl)
    as (st' & E & Ec).
  vm_compute in E. discriminate E.
Qed.

(** ** doActionRef *)

Section RefActions.

Context {World : Type} `{Collaborators World}.

Lemma is_one_of_false (v : value) (names : list string) (name : string) :
  is_one_of v names = false -> In name names -> is_literal v name = false.
Proof.
  unfold is_one_of. intros Hn Hin.
  destruct (is_literal v name) eqn:E; [|reflexivity].
  rewrite <- Hn. symmetry. apply existsb_exists. exists name. auto.
Qed.

(** X1.  For the actions [removeTag], [removeBranch] and [removeRemote],
    [doActionRef] calls the matching removal on the name of the ref and,
    once it has returned, is the forced re-fetch [getCommit(hash, true)] of
    the decoded hash; when the removal throws, the handler throws the same
    and nothing is fetched. *)
Theorem doActionRef_removes_then_refetches
    (args : value) (action : string) (remove : value -> call) (hash : string)
    (st : state World) :
  (action, remove) = ("removeTag", GitRemoveTag) \/
  (action, remove) = ("removeBranch", GitRemoveBranch) \/
  (action, remove) = ("removeRemote", GitRemoveRemoteBranch) ->
  field args "name" = VStr action ->
  decodeURIComponent (field args "hash") = Returns hash ->
  nullish (field args "ref") = false ->
  let removal := remove (field (field args "ref") "name") in
  let st1 w := {| this := this st; world := w; trace := trace st ++ [Called removal] |} in
  (forall x w, respond removal (world st) = (Returns x, w) ->
      doActionRef args st = invoke (GitGetCommit (VStr hash) (VBool true)) (st1 w)) /\
  (forall e w, respond removal (world st) = (Throws e, w) ->
      doActionRef args st = (Throws e, st1 w)).
Proof.
  intros Hact Hname Hdec Href removal st1.
  assert (Hn : nullish args = false).
  { destruct args; try reflexivity; discriminate. }
  assert (Hrun : doActionRef args st =
                 bind (invoke removal)
                      (fun _ => invoke (GitGetCommit (VStr hash) (VBool true))) st).
  { unfold doActionRef, bind at 1 2 3 4, lift.
    rewrite !(get_field args) by assumption. rewrite Hname, Hdec.
    subst removal.
    destruct Hact as [E|[E|E]]; injection E as -> ->;
      cbn [is_literal String.eqb Ascii.eqb Bool.eqb];
      unfold bind, lift; rewrite (get_field _ "name" Href); reflexivity. }
  split; intros r w Hr; rewrite Hrun; unfold bind; unfold invoke at 1;
    rewrite Hr; reflexivity.
Qed.

(** X2.  Under any other action name (a string or not), [doActionRef]
    removes nothing and does not look at the ref, which may be missing: it
    is the forced re-fetch of the decoded hash and nothing else. *)
Theorem doActionRef_other_action_only_refetches
    (args : value) (hash : string) (st : state World) :
  nullish args = false ->
  is_one_of (field args "name") doActionRef_cases = false ->
  decodeURIComponent (field args "hash") = Returns hash ->
  doActionRef args st = invoke (GitGetCommit (VStr hash) (VBool true)) st.
Proof.
  intros Hn Hname Hdec.
  unfold doActionRef, bind, lift. rewrite !(get_field args) by assumption.
  rewrite Hdec.
  rewrite !(is_one_of_false _ _ _ Hname) by (cbn; auto).
  unfold ret.
  destruct (invoke (GitGetCommit (VStr hash) (VBool true)) st) as [[r|e] st'];
    reflexivity.
Qed.

(** X3.  [doActionRef] fails before it touches the git service when the
    hash is not a well-formed URI component (whatever the action), and,
    for an action it has a case for, when the payload has no ref. *)
Theorem doActionRef_fails_before_any_call (args : value) (st : state World) :
  nullish args = false ->
  (forall e, decodeURIComponent (field args "hash") = Throws e ->
      doActionRef args st = (Throws e, st)) /\
  (forall hash,
      decodeURIComponent (field args "hash") = Returns hash ->
      is_one_of (field args "name") doActionRef_cases = true ->
      nullish (field args "ref") = true ->
      doActionRef args st = (Throws TypeError, st)).
Proof.
  intros Hn. split.
  - intros e Hdec. unfold doActionRef, bind, lift.
    rewrite !(get_field args) by assumption. rewrite Hdec. reflexivity.
  - intros hash Hdec Hname Href. unfold doActionRef, bind, lift.
    rewrite !(get_field args) by assumption. rewrite Hdec.
    unfold get at 1 2 3. rewrite Href.
    unfold is_one_of, doActionRef_cases in Hname. cbn [existsb] in Hname.
    destruct (is_literal (field args "name") "removeTag"); [reflexivity|].
    destruct (is_literal (field args "name") "removeBranch"); [reflexivity|].
    destruct (is_literal (field args "name") "removeRemote"); [reflexivity|].
    discriminate Hname.
Qed.

End RefActions.

(** ** doAction: the other cases *)

Section MoreActions.

Context {World : Type} `{Collaborators World}.

(** Run [doAction] up to its [switch], for a payload that is an object,
    with the git root and the current branch known and the value decoded. *)
Ltac enter_doAction Hn Hdec Hg Hb :=
  unfold doAction, push_ref, bind, invoke, lift, ret;
  rewrite Hg; cbn [this world trace]; rewrite Hb; cbn [this world trace];
  rewrite !(get_field _ _ Hn); rewrite Hdec.

(** X4.  For [reset_hard] (resp. [reset_soft]) [doAction] calls
    [reset(hash, true)] (resp. [reset(hash)]) on the full hash of the log
    entry and, once that has returned, returns the log entry as it was
    given, refs untouched; when the reset throws, the handler throws the
    same. *)
Theorem doAction_reset_keeps_log_entry
    (args h : value) (action : string) (hard : value) (v : string)
    (st : state World) (g b : value) (w1 w2 : World) :
  (action, hard) = ("reset_hard", VBool true) \/
  (action, hard) = ("reset_soft", VUndef) ->
  field args "name" = VStr action ->
  decodeURIComponent (field args "value") = Returns v ->
  get (field (field args "logEntry") "hash") "full" = Returns h ->
  respond GitGetGitRoot (world st) = (Returns g, w1) ->
  respond GitGetCurrentBranch w1 = (Returns b, w2) ->
  let st' w := {| this := this st; world := w;
                  trace := trace st ++ [Called GitGetGitRoot; Called GitGetCurrentBranch;
                                        Called (GitReset h hard)] |} in
  (forall x w, respond (GitReset h hard) w2 = (Returns x, w) ->
      doAction args st = (Returns (field args "logEntry"), st' w)) /\
  (forall e w, respond (GitReset h hard) w2 = (Throws e, w) ->
      doAction args st = (Throws e, st' w)).
Proof.
  intros Hact Hname Hdec Hhash Hg Hb st'.
  assert (Hn : nullish args = false).
  { destruct args; try reflexivity; discriminate. }
  assert (Hl : nullish (field args "logEntry") = false).
  { destruct (field args "logEntry"); try reflexivity; discriminate. }
  split; intros r w Hr; enter_doAction Hn Hdec Hg Hb;
    rewrite Hname;
    (destruct Hact as [E|E]; injection E as -> ->;
     cbn [is_literal String.eqb Ascii.eqb Bool.eqb];
     rewrite (get_field _ "hash" Hl), Hhash; cbn [this world trace];
     rewrite Hr; subst st'; cbn beta; rewrite <- !app_assoc; reflexivity).
Qed.

(** X5.  Under any action name without a case of its own (a string or
    not), [doAction] hands [CommitDetails(gitRoot, branch, logEntry)] to
    the command [git.commit.doSomething] and, once that has returned,
    returns the log entry as it was given, be it [undefined]; the git
    service is asked for the root and the branch only. *)
Theorem doAction_default_runs_command
    (args : value) (v : string) (st : state World) (g b : value) (w1 w2 : World) :
  nullish args = false ->
  is_one_of (field args "name") doAction_cases = false ->
  decodeURIComponent (field args "value") = Returns v ->
  respond GitGetGitRoot (world st) = (Returns g, w1) ->
  respond GitGetCurrentBranch w1 = (Returns b, w2) ->
  let command := ExecuteCommand "git.commit.doSomething"
                                (CommitDetails g b (field args "logEntry")) in
  let st' w := {| this := this st; world := w;
                  trace := trace st ++ [Called GitGetGitRoot; Called GitGetCurrentBranch;
                                        Called command] |} in
  (forall x w, respond command w2 = (Returns x, w) ->
      doAction args st = (Returns (field args "logEntry"), st' w)) /\
  (forall e w, respond command w2 = (Throws e, w) ->
      doAction args st = (Throws e, st' w)).
Proof.
  intros Hn Hname Hdec Hg Hb command st'.
  split; intros r w Hr; enter_doAction Hn Hdec Hg Hb;
    rewrite !(is_one_of_false _ _ _ Hname) by (cbn; auto);
    cbn [this world trace];
    fold command; rewrite Hr; subst st'; cbn beta;
    rewrite <- !app_assoc; reflexivity.
Qed.

(** X6.  A value that is not a well-formed URI component makes [doAction]
    throw what [decodeURIComponent] throws, whatever the action, resets
    included: the git service has been asked for the root and the branch
    and for nothing else. *)
Theorem doAction_malformed_value_changes_nothing
    (args e : value) (st : state World) (g b : value) (w1 w2 : World) :
  nullish args = false ->
  decodeURIComponent (field args "value") = Throws e ->
  respond GitGetGitRoot (world st) = (Returns g, w1) ->
  respond GitGetCurrentBranch w1 = (Returns b, w2) ->
  doAction args st =
    (Throws e,
     {| this := this st; world := w2;
        trace := trace st ++ [Called GitGetGitRoot; Called GitGetCurrentBranch] |}).
Proof.
  intros Hn Hdec Hg Hb. unfold doAction, bind, invoke, lift.
  rewrite Hg. cbn [this world trace]. rewrite Hb. cbn [this world trace].
  rewrite !(get_field args) by assumption. rewrite Hdec.
  rewrite <- !app_assoc. reflexivity.
Qed.

(** X7.  When the refs of the log entry are not an array, [newtag] (resp.
    [newbranch]) still creates the tag (branch) and only then throws a
    [TypeError]: the creation is not undone. *)
Theorem doAction_creates_before_push_fails
    (args h : value) (action : string) (type : value)
    (create : value -> value -> call) (v : string)
    (st : state World) (g b x : value) (w1 w2 w3 : World) :
  (action, type, create) = ("newtag", RefType_Tag, GitCreateTag) \/
  (action, type, create) = ("newbranch", RefType_Head, GitCreateBranch) ->
  field args "name" = VStr action ->
  decodeURIComponent (field args "value") = Returns v ->
  get (field (field args "logEntry") "hash") "full" = Returns h ->
  is_array (field (field args "logEntry") "refs") = false ->
  respond GitGetGitRoot (world st) = (Returns g, w1) ->
  respond GitGetCurrentBranch w1 = (Returns b, w2) ->
  respond (create (VStr v) h) w2 = (Returns x, w3) ->
  doAction args st =
    (Throws TypeError,
     {| this := this st; world := w3;
        trace := trace st ++ [Called GitGetGitRoot; Called GitGetCurrentBranch;
                              Called (create (VStr v) h)] |}).
Proof.
  intros Hact Hname Hdec Hhash Hrefs Hg Hb Hx.
  assert (Hn : nullish args = false).
  { destruct args; try reflexivity; discriminate. }
  assert (Hl : nullish (field args "logEntry") = false).
  { destruct (field args "logEntry"); try reflexivity; discriminate. }
  assert (Hpush : forall ref, push (field (field args "logEntry") "refs") ref
                              = Throws TypeError).
  { intro ref. destruct (field (field args "logEntry") "refs");
      try reflexivity; discriminate. }
  enter_doAction Hn Hdec Hg Hb.
  rewrite Hname.
  destruct Hact as [E|E]; injection E as -> -> ->;
    cbn [is_literal String.eqb Ascii.eqb Bool.eqb];
    rewrite !(get_field (field args "logEntry")) by assumption;
    rewrite Hhash; cbn [this world trace]; rewrite Hx;
    cbn [this world trace]; cbv iota beta; try rewrite Hpush;
    cbn [this world trace]; rewrite <- !app_assoc; reflexivity.
Qed.

(** X8.  A value without a percent sign names the tag (the branch) as it
    stands: for [newtag] (resp. [newbranch]) with the string [v] as value,
    the creation is called with [(v, h)] and a ref of the name [v] is
    appended to the refs of the log entry returned. *)
Theorem doAction_plain_value_is_the_name
    (args h : value) (action : string) (type : value)
    (create : value -> value -> call) (v : string) (refs : list value)
    (st : state World) (g b x : value) (w1 w2 w3 : World) :
  (action, type, create) = ("newtag", RefType_Tag, GitCreateTag) \/
  (action, type, create) = ("newbranch", RefType_Head, GitCreateBranch) ->
  field args "name" = VStr action ->
  field args "value" = VStr v ->
  forallb (fun c => negb (Ascii.eqb c "%")) (list_ascii_of_string v) = true ->
  get (field (field args "logEntry") "hash") "full" = Returns h ->
  field (field args "logEntry") "refs" = VArr refs ->
  respond GitGetGitRoot (world st) = (Returns g, w1) ->
  respond GitGetCurrentBranch w1 = (Returns b, w2) ->
  respond (create (VStr v) h) w2 = (Returns x, w3) ->
  doAction args st =
    (Returns (with_field (field args "logEntry") "refs"
                (VArr (refs ++ [VObj [("type", type); ("name", VStr v)]]))),
     {| this := this st; world := w3;
        trace := trace st ++ [Called GitGetGitRoot; Called GitGetCurrentBranch;
                              Called (create (VStr v) h)] |}).
Proof.
  intros Hact Hname Hvalue Hplain Hhash Hrefs Hg Hb Hx.
  assert (Hn : nullish args = false).
  { destruct args; try reflexivity; discriminate. }
  assert (Hl : nullish (field args "logEntry") = false).
  { destruct (field args "logEntry"); try reflexivity; discriminate. }
  assert (Hdec : decodeURIComponent (field args "value") = Returns v).
  { rewrite Hvalue. apply decodeURIComponent_plain, Hplain. }
  enter_doAction Hn Hdec Hg Hb.
  rewrite Hname.
  destruct Hact as [E|E]; injection E as -> -> ->;
    cbn [is_literal String.eqb Ascii.eqb Bool.eqb];
    rewrite !(get_field (field args "logEntry")) by assumption;
    rewrite Hhash, Hrefs; cbn [this world trace push]; rewrite Hx;
    cbn [this world trace]; rewrite <- !app_assoc; reflexivity.
Qed.

End MoreActions.

(** ** Every message *)

Section EveryMessage.

Context {World : Type} `{Collaborators World}.

Lemma member_tidy (reenter : M World value) (cmd : string)
      (f : value -> M World value) :
  member_of_this reenter cmd = Method f ->
  cmd <> "postMessageParser" ->
  forall payload, tidy (f payload).
Proof.
  unfold member_of_this. intros Hm Hp.
  destruct (assoc cmd command_table) as [h|] eqn:Ht.
  - injection Hm as <-. eapply table_handlers_tidy; eauto.
  - destruct (String.eqb cmd "getWebviewPanel").
    { injection Hm as <-. intro.
      apply orderly_tidy, silent_orderly, silent_getWebviewPanel. }
    destruct (String.eqb cmd "dispose").
    { injection Hm as <-. intro. apply orderly_tidy, silent_orderly, silent_dispose. }
    destruct (String.eqb_spec cmd "postMessageParser"); [contradiction|].
    destruct (existsb (String.eqb cmd) data_fields); [discriminate|].
    destruct (inherited cmd) as [g|]; [|discriminate].
    injection Hm as <-. intro. apply orderly_tidy, silent_orderly, silent_lift.
Qed.

(** X9.  A message that is not [null] or [undefined] and does not name
    [postMessageParser] is answered once: the parser returns, and the one
    envelope posted in the course of the dispatch carries the request id of
    the message, with a payload or with an error. *)
Theorem every_message_answered_once (message : value) (st : state World) :
  nullish message = false ->
  ToString (field message "cmd") <> Returns "postMessageParser" ->
  exists reply st',
    postMessageParser message st = (Returns VUndef, st') /\
    ((exists result, reply = success_envelope (field message "requestId") result) \/
     (exists e, reply = error_envelope (field message "requestId") e)) /\
    envelopes (since st st') = [reply].
Proof.
  intros Hn Hp.
  destruct (ToString (field message "cmd")) as [name|e] eqn:Hc.
  2:{ exists (error_envelope (field message "requestId") e). eexists.
      split; [|split].
      + rewrite postMessageParser_unfold. apply (dispatch_unprintable _ _ _ e); assumption.
      + right. eauto.
      + rewrite (since_extension st _ [ShowErrorMessage e; PostMessage
            (error_envelope (field message "requestId") e)]);
          [reflexivity|]. simpl. rewrite <- app_assoc. reflexivity. }
  assert (Hp' : name <> "postMessageParser") by congruence.
  destruct (member_of_this (postMessageParser (field message "payload")) name)
    as [f| |] eqn:Hm.
  - destruct (f (field message "payload") st) as [[r|e] st1] eqn:Hf;
      destruct (member_tidy _ _ _ Hm Hp' _ _ _ _ Hf) as (evs & Et & En & _ & Ho).
    + eexists. eexists. split; [|split].
      * rewrite postMessageParser_unfold. eapply dispatch_returns; eauto.
      * left. eauto.
      * rewrite (since_extension st _ (evs ++ [PostMessage
            (success_envelope (field message "requestId") r)])).
        -- rewrite envelopes_app, En. reflexivity.
        -- simpl. rewrite Et, app_assoc. reflexivity.
    + eexists. eexists. split; [|split].
      * rewrite postMessageParser_unfold. eapply dispatch_throws; eauto.
      * right. eauto.
      * rewrite (since_extension st _ (evs ++ [ShowErrorMessage e; PostMessage
            (error_envelope (field message "requestId") e)])).
        -- rewrite envelopes_app, En. reflexivity.
        -- simpl. rewrite Et, <- !app_assoc. reflexivity.
  - exists (error_envelope (field message "requestId") TypeError). eexists.
    split; [|split].
    + rewrite postMessageParser_unfold.
      apply (dispatch_not_callable _ _ name); [assumption|assumption|].
      eapply member_not_callable. left. exact Hm.
    + right. eauto.
    + rewrite (since_extension st _ [ShowErrorMessage TypeError; PostMessage
          (error_envelope (field message "requestId") TypeError)]);
        [reflexivity|]. simpl. rewrite <- app_assoc. reflexivity.
  - exists (error_envelope (field message "requestId") TypeError). eexists.
    split; [|split].
    + rewrite postMessageParser_unfold.
      apply (dispatch_not_callable _ _ name); [assumption|assumption|].
      eapply member_not_callable. right. exact Hm.
    + right. eauto.
    + rewrite (since_extension st _ [ShowErrorMessage TypeError; PostMessage
          (error_envelope (field message "requestId") TypeError)]);
        [reflexivity|]. simpl. rewrite <- app_assoc. reflexivity.
Qed.

(** X10.  The parser throws exactly on the messages [null] and
    [undefined]: there it shows a [TypeError], posts nothing and throws the
    [TypeError] of its own [catch] block; on every other message it
    returns. *)
Theorem parser_throws_exactly_on_null_messages (message : value) (st : state World) :
  (nullish message = true ->
   postMessageParser message st =
     (Throws TypeError, emit (ShowErrorMessage TypeError) st)) /\
  (nullish message = false ->
   exists st', postMessageParser message st = (Returns VUndef, st')).
Proof.
  split; intros Hn; rewrite postMessageParser_unfold.
  - apply dispatch_nullish, Hn.
  - apply dispatch_total, Hn.
Qed.

(** X11.  A message that names [postMessageParser] has its payload parsed
    as a message of its own, then is answered with the payload
    [undefined]; when that payload is [null] or [undefined], the
    [TypeError] is shown twice and the message is answered with it. *)
Theorem reentrant_message_dispatches_its_payload (message : value) (st : state World) :
  nullish message = false ->
  ToString (field message "cmd") = Returns "postMessageParser" ->
  let inner := field message "payload" in
  let requestId := field message "requestId" in
  (nullish inner = false ->
   exists st1,
     postMessageParser inner st = (Returns VUndef, st1) /\
     postMessageParser message st =
       (Returns VUndef, emit (PostMessage (success_envelope requestId VUndef)) st1)) /\
  (nullish inner = true ->
   postMessageParser message st =
     (Returns VUndef,
      emit (PostMessage (error_envelope requestId TypeError))
           (emit (ShowErrorMessage TypeError) (emit (ShowErrorMessage TypeError) st)))).
Proof.
  intros Hn Hc inner requestId.
  assert (Hm : member_of_this (postMessageParser inner) "postMessageParser"
               = Method (fun _ => postMessageParser inner)) by reflexivity.
  split; intros Hi.
  - destruct (dispatch_total (postMessageParser (field inner "payload")) inner st Hi)
      as [st1 E1].
    rewrite <- postMessageParser_unfold in E1.
    exists st1. split; [exact E1|].
    rewrite postMessageParser_unfold. eapply dispatch_returns; eauto.
  - rewrite postMessageParser_unfold. eapply dispatch_throws; eauto.
    cbv beta. rewrite postMessageParser_unfold. apply dispatch_nullish, Hi.
Qed.

(** X12.  A payload that is [null] or [undefined] makes every handler
    that reads its payload throw a [TypeError]: [getLogEntries],
    [getCommit], [doActionRef] and [registerState] before anything else
    happens; [doAction], [doSomethingWithCommit] and [selectCommittedFile]
    after the git service has given the root and the current branch. *)
Theorem handlers_reject_missing_payload (payload : value) (st : state World) :
  nullish payload = true ->
  getLogEntries payload st = (Throws TypeError, st) /\
  getCommit payload st = (Throws TypeError, st) /\
  doActionRef payload st = (Throws TypeError, st) /\
  registerState payload st = (Throws TypeError, st) /\
  (forall g b w1 w2,
      respond GitGetGitRoot (world st) = (Returns g, w1) ->
      respond GitGetCurrentBranch w1 = (Returns b, w2) ->
      let st' := {| this := this st; world := w2;
                    trace := trace st ++ [Called GitGetGitRoot;
                                          Called GitGetCurrentBranch] |} in
      doAction payload st = (Throws TypeError, st') /\
      doSomethingWithCommit payload st = (Throws TypeError, st') /\
      selectCommittedFile payload st = (Throws TypeError, st')).
Proof.
  intros Hn.
  assert (Hget : forall k, get payload k = Throws TypeError).
  { intro k. unfold get. rewrite Hn. reflexivity. }
  split; [|split; [|split; [|split]]].
  - unfold getLogEntries, bind, lift. rewrite Hget. reflexivity.
  - unfold getCommit, bind, lift. rewrite Hget. reflexivity.
  - unfold doActionRef, bind, lift. rewrite Hget. reflexivity.
  - unfold registerState, bind, lift. rewrite Hget. reflexivity.
  - intros g b w1 w2 Hg Hb st'. subst st'.
    split; [|split];
      unfold doAction, doSomethingWithCommit, selectCommittedFile, bind, invoke, lift;
      rewrite Hg; cbn [this world trace]; rewrite Hb; cbn [this world trace];
      rewrite Hget, <- !app_assoc; reflexivity.
Qed.

End EveryMessage.

(** ** What the controller keeps, whatever it is sent *)

Lemma vsize_field (fs : list (string * value)) (k : string) (v : value) :
  assoc k fs = Some v -> (vsize v < vsize (VObj fs))%nat.
Proof.
  cbn [vsize]. unfold list_sum. induction fs as [|[k' x] fs IH]; cbn [assoc map list_sum fold_right]; cbv beta iota.
  - discriminate.
  - destruct (String.eqb k k').
    + intros E. injection E as ->. lia.
    + intros E. specialize (IH E). lia.
Qed.

Lemma wire_shape_envelope (m : value) : is_envelope m = true -> wire_shape m.
Proof. intros E. left. exact E. Qed.

Section Invariants.

Context {World : Type} `{Collaborators World}.

Lemma silent_lawful {A} (m : M World A) : silent m -> lawful m.
Proof.
  intros Hm st o st' E. destruct (Hm _ _ _ E) as (T & evs & Et & P & _).
  split; [rewrite T; reflexivity|]. exists evs. split; [exact Et|].
  rewrite P. constructor.
Qed.

Lemma lawful_bind {A B} (m : M World A) (f : A -> M World B) :
  lawful m -> (forall a, lawful (f a)) -> lawful (bind m f).
Proof.
  intros Hm Hf st o st' E. unfold bind in E.
  destruct (m st) as [[a|e] st1] eqn:Em.
  - destruct (Hm _ _ _ Em) as (D1 & evs1 & E1 & P1).
    destruct (Hf a _ _ _ E) as (D2 & evs2 & E2 & P2).
    split; [congruence|]. exists (evs1 ++ evs2).
    rewrite E2, E1, app_assoc, posted_app. split; [reflexivity|].
    apply Forall_app; auto.
  - inversion E; subst. exact (Hm _ _ _ Em).
Qed.

Lemma lawful_postMessage (m : value) :
  wire_shape m -> lawful (postMessage (World := World) m).
Proof.
  intros Hm st o st' E. inversion E; subst. split; [reflexivity|].
  exists [PostMessage m]. split; [reflexivity|].
  constructor; [exact Hm|constructor].
Qed.

Lemma lawful_showErrorMessage (e : value) : lawful (showErrorMessage (World := World) e).
Proof.
  intros st o st' E. inversion E; subst. split; [reflexivity|].
  exists [ShowErrorMessage e]. split; [reflexivity|]. constructor.
Qed.

Lemma lawful_try_catch {A} (body : M World A) (handler : value -> M World A) :
  lawful body -> (forall e, lawful (handler e)) -> lawful (try_catch body handler).
Proof.
  intros Hb Hh st o st' E. unfold try_catch in E.
  destruct (body st) as [[a|e] st1] eqn:Eb.
  - inversion E; subst. exact (Hb _ _ _ Eb).
  - destruct (Hb _ _ _ Eb) as (D1 & evs1 & E1 & P1).
    destruct (Hh e _ _ _ E) as (D2 & evs2 & E2 & P2).
    split; [congruence|]. exists (evs1 ++ evs2).
    rewrite E2, E1, app_assoc, posted_app. split; [reflexivity|].
    apply Forall_app; auto.
Qed.

Lemma lawful_getAvatars (args : value) : lawful (getAvatars args).
Proof.
  unfold getAvatars. apply lawful_bind; [apply silent_lawful, silent_invoke|].
  intro originType. destruct (negb (truthy originType)).
  - apply lawful_bind; [|intro; apply silent_lawful, silent_ret].
    apply lawful_postMessage. right. reflexivity.
  - cbv zeta. apply silent_lawful.
    destruct (find _ avatarProviders); [apply silent_invoke|].
    destruct (find _ avatarProviders); [apply silent_invoke|apply silent_throw].
Qed.

Lemma lawful_registerState (args : value) : lawful (registerState (World := World) args).
Proof.
  intros st o st' E. unfold registerState, bind, lift, write_stateRequestId in E.
  destruct (get args "requestId"); inversion E; subst;
    (split; [reflexivity|]); exists []; rewrite app_nil_r; split; auto; constructor.
Qed.

Lemma table_handlers_lawful (cmd : string) (handler : value -> M World value) :
  assoc cmd command_table = Some handler -> forall payload, lawful (handler payload).
Proof.
  unfold command_table. cbn [assoc].
  repeat (destruct (String.eqb cmd _);
          [ intros E; injection E as <-; intro payload;
            auto using silent_lawful, silent_getLogEntries,
              silent_getBranches, silent_getAuthors, silent_getCommit,
              lawful_getAvatars, silent_doActionRef, silent_doAction,
              silent_doSomethingWithCommit, silent_selectCommittedFile,
              lawful_registerState, silent_sendState | ]).
  discriminate.
Qed.

Lemma member_lawful (reenter : M World value) (cmd : string)
      (f : value -> M World value) :
  lawful reenter ->
  member_of_this reenter cmd = Method f ->
  forall payload, lawful (f payload).
Proof.
  unfold member_of_this. intros Hr Hm.
  destruct (assoc cmd command_table) as [h|] eqn:Ht.
  - injection Hm as <-. eapply table_handlers_lawful; eauto.
  - destruct (String.eqb cmd "getWebviewPanel").
    { injection Hm as <-. intro. apply silent_lawful, silent_getWebviewPanel. }
    destruct (String.eqb cmd "dispose").
    { injection Hm as <-. intro. apply silent_lawful, silent_dispose. }
    destruct (String.eqb cmd "postMessageParser").
    { injection Hm as <-. intro. exact Hr. }
    destruct (existsb (String.eqb cmd) data_fields); [discriminate|].
    destruct (inherited cmd) as [g|]; [|discriminate].
    injection Hm as <-. intro. apply silent_lawful, silent_lift.
Qed.

Lemma lawful_dispatch (reenter : M World value) (message : value) :
  lawful reenter -> lawful (dispatch reenter message).
Proof.
  intros Hr st o st' E. destruct (nullish message) eqn:Hn.
  - rewrite dispatch_nullish in E by assumption. inversion E; subst.
    split; [reflexivity|]. exists [ShowErrorMessage TypeError].
    split; [reflexivity|constructor].
  - destruct (ToString (field message "cmd")) as [name|e] eqn:Hc.
    2:{ rewrite (dispatch_unprintable _ _ _ e) in E by assumption.
        inversion E; subst. split; [reflexivity|]. eexists. split.
        - cbn [emit trace]. rewrite <- app_assoc. reflexivity.
        - repeat constructor. }
    destruct (member_of_this reenter name) as [f| |] eqn:Hm.
    + destruct (f (field message "payload") st) as [[r|e] st1] eqn:Hf;
        destruct (member_lawful _ _ _ Hr Hm _ _ _ _ Hf) as (D & evs & Et & P).
      * erewrite dispatch_returns in E by eassumption. inversion E; subst.
        split; [exact D|]. eexists. split.
        -- cbn [emit trace]. rewrite Et, <- app_assoc. reflexivity.
        -- rewrite posted_app. apply Forall_app. split; [exact P|].
           repeat constructor.
      * erewrite dispatch_throws in E by eassumption. inversion E; subst.
        split; [exact D|]. eexists. split.
        -- cbn [emit trace]. rewrite Et, <- !app_assoc. reflexivity.
        -- rewrite posted_app. apply Forall_app. split; [exact P|].
           repeat constructor.
    + rewrite (dispatch_not_callable _ _ name) in E; auto.
      * inversion E; subst. split; [reflexivity|]. eexists. split.
        -- cbn [emit trace]. rewrite <- app_assoc. reflexivity.
        -- repeat constructor.
      * eapply member_not_callable. left. exact Hm.
    + rewrite (dispatch_not_callable _ _ name) in E; auto.
      * inversion E; subst. split; [reflexivity|]. eexists. split.
        -- cbn [emit trace]. rewrite <- app_assoc. reflexivity.
        -- repeat constructor.
      * eapply member_not_callable. right. exact Hm.
Qed.

Lemma lawful_ext {A} (m1 m2 : M World A) :
  (forall st, m1 st = m2 st) -> lawful m2 -> lawful m1.
Proof. intros He Hm st o st' E. rewrite He in E. exact (Hm _ _ _ E). Qed.

Lemma lawful_postMessageParser_upto (n : nat) (message : value) :
  (vsize message < n)%nat -> lawful (postMessageParser message).
Proof.
  revert message. induction n as [|n IH]; intros message Hs.
  - inversion Hs.
  - apply (lawful_ext _ (dispatch (postMessageParser (field message "payload")) message)).
    { apply postMessageParser_unfold. }
    apply lawful_dispatch.
    assert (Hu : lawful (postMessageParser VUndef)).
    { apply (lawful_ext _ (dispatch (postMessageParser (field VUndef "payload")) VUndef)).
      { apply postMessageParser_unfold. }
      intros st o st' E. rewrite dispatch_nullish in E by reflexivity.
      inversion E; subst. split; [reflexivity|].
      exists [ShowErrorMessage TypeError]. split; [reflexivity|constructor]. }
    destruct message; try exact Hu.
    cbn [field]. destruct (assoc "payload" fields) as [v|] eqn:Ea; [|exact Hu].
    apply IH. apply vsize_field in Ea. lia.
Qed.

Lemma lawful_postMessageParser (message : value) : lawful (postMessageParser message).
Proof. apply (lawful_postMessageParser_upto (S (vsize message))). lia. Qed.

Lemma lawful_deliver (i : input) : lawful (deliver i).
Proof.
  destruct i as [m| |]; cbn [deliver].
  - apply lawful_postMessageParser.
  - unfold onStateChanged_listener.
    apply lawful_bind; [apply silent_lawful, silent_read_this|intro c].
    apply lawful_bind; [apply lawful_postMessageParser|intro].
    apply silent_lawful, silent_ret.
  - apply silent_lawful, silent_dispose.
Qed.

Lemma run_inputs_lawful (l : list input) (st : state World) :
  disposable (this (run_inputs l st)) = disposable (this st) /\
  exists evs, trace (run_inputs l st) = trace st ++ evs /\ Forall wire_shape (posted evs).
Proof.
  revert st. induction l as [|i l IH]; intro st.
  - split; [reflexivity|]. exists []. rewrite app_nil_r. split; [reflexivity|constructor].
  - cbn [run_inputs fold_left]. fold (run_inputs l (snd (deliver i st))).
    destruct (deliver i st) as [o st1] eqn:Ed. cbn [snd].
    destruct (lawful_deliver i _ _ _ Ed) as (D1 & evs1 & E1 & P1).
    destruct (IH st1) as (D2 & evs2 & E2 & P2).
    split; [congruence|]. exists (evs1 ++ evs2).
    rewrite E2, E1, app_assoc, posted_app. split; [reflexivity|].
    apply Forall_app; auto.
Qed.

(** X13.  Whatever the inputs (messages of any shape, nested or not,
    state changes, calls of [dispose]), the controller holds the same
    subscriptions afterwards, and every message it has posted is either an
    envelope, with a [requestId], or the one message of [getAvatars],
    [{ cmd: 'getAvatarsResult', error: 'No origin type found' }]. *)
Theorem controller_keeps_subscriptions_and_wire_shapes
    (l : list input) (st : state World) :
  disposable (this (run_inputs l st)) = disposable (this st) /\
  Forall wire_shape (posted (since st (run_inputs l st))).
Proof.
  destruct (run_inputs_lawful l st) as (D & evs & Et & P).
  split; [exact D|]. rewrite (since_extension _ _ _ Et). exact P.
Qed.

(** X14.  No handler of the command table shows an error or posts an
    envelope by itself; none but [registerState] changes the controller;
    none but [getAvatars] posts anything. *)
Theorem handlers_leave_answering_to_the_dispatcher
    (cmd : string) (handler : value -> M World value) (payload : value)
    (st st' : state World) (o : outcome value) :
  assoc cmd command_table = Some handler ->
  handler payload st = (o, st') ->
  shown (since st st') = [] /\
  envelopes (since st st') = [] /\
  (cmd <> "registerState" -> this st' = this st) /\
  (cmd <> "getAvatars" -> posted (since st st') = []).
Proof.
  intros Ht Hh.
  destruct (table_handlers_tidy cmd handler Ht _ _ _ _ Hh) as (evs & Et & En & Es & _).
  rewrite (since_extension _ _ _ Et). repeat split; auto.
  - intros Hr. exact (proj1 (table_handlers_orderly cmd handler Ht Hr _ _ _ _ Hh)).
  - intros Ha.
    destruct (table_handlers_mute cmd handler Ht Ha _ _ _ _ Hh) as (evs' & Et' & P).
    rewrite Et in Et'. apply app_inv_head in Et'. subst evs'. exact P.
Qed.

End Invariants.

(** ** Integer bounds *)

Ltac read_digit :=
  cbn [digits];
  match goal with
  | |- context [digit_value ?c] =>
      let d := eval vm_compute in (digit_value c) in change (digit_value c) with d
  end;
  cbv iota beta;
  match goal with
  | |- context [?a <? 10] =>
      let b := eval vm_compute in (a <? 10) in change (a <? 10) with b
  end;
  cbv iota.

Lemma digits_after (u : Decimal.uint) (p : positive) :
  digits 10 (Some (Z.pos p)) (NilEmpty.string_of_uint u)
  = Some (Z.pos (Pos.of_uint_acc u p)).
Proof.
  revert p. induction u; intro p; cbn [NilEmpty.string_of_uint Pos.of_uint_acc];
    [reflexivity| ..];
    read_digit; rewrite <- IHu; f_equal; f_equal; lia.
Qed.

Lemma digits_from_zero (u : Decimal.uint) :
  digits 10 (Some 0) (NilEmpty.string_of_uint u) = Some (Z.of_N (Pos.of_uint u)).
Proof.
  induction u; cbn [NilEmpty.string_of_uint Pos.of_uint]; [reflexivity| ..];
    read_digit;
    [ exact IHu | .. ]; cbn [Z.mul Z.add]; rewrite digits_after; reflexivity.
Qed.

Lemma digits_from_none (u : Decimal.uint) :
  u <> Decimal.Nil ->
  digits 10 None (NilEmpty.string_of_uint u) = Some (Z.of_N (Pos.of_uint u)).
Proof.
  intros Hu. rewrite <- digits_from_zero.
  destruct u; [contradiction| ..]; reflexivity.
Qed.

Lemma space_width_plain (c : ascii) (r : string) :
  32 < code c < 128 -> space_width (String c r) = 0%nat.
Proof.
  intros Hc. unfold space_width. cbv zeta.
  assert (E0 : ((9 <=? code c) && (code c <=? 13)) || (code c =? 32) = false).
  { destruct (Z.leb_spec 9 (code c)), (Z.leb_spec (code c) 13),
      (Z.eqb_spec (code c) 32); cbn; try reflexivity; lia. }
  rewrite E0.
  destruct r as [|c1 r]; [reflexivity|].
  rewrite (proj2 (Z.eqb_neq (code c) 0xC2)) by lia. cbn [andb].
  destruct r as [|c2 r]; [reflexivity|].
  rewrite (proj2 (Z.eqb_neq (code c) 0xE1)) by lia.
  rewrite (proj2 (Z.eqb_neq (code c) 0xE2)) by lia.
  rewrite (proj2 (Z.eqb_neq (code c) 0xE3)) by lia.
  rewrite (proj2 (Z.eqb_neq (code c) 0xEF)) by lia.
  reflexivity.
Qed.

Lemma trim_start_plain (c : ascii) (r : string) :
  32 < code c < 128 -> trim_start (String c r) = String c r.
Proof.
  intros Hc. unfold trim_start. cbn [String.length trim_start_upto].
  rewrite space_width_plain by assumption. reflexivity.
Qed.

(** The decimal digits of a number start with no white space, no sign and
    no [0x]. *)
Lemma numeral_as_parsed (u : Decimal.uint) :
  u <> Decimal.Nil ->
  let s := NilEmpty.string_of_uint u in
  trim_start s = s /\ strip_sign s = (1, s) /\ strip_0x s = None /\
  trim_start (String "-" s) = String "-" s.
Proof.
  intros Hu s. subst s. repeat split.
  - destruct u; [contradiction| ..]; cbn [NilEmpty.string_of_uint];
      apply trim_start_plain; vm_compute; split; reflexivity.
  - destruct u; [contradiction| ..]; reflexivity.
  - destruct u as [|u|u|u|u|u|u|u|u|u|u]; [contradiction| ..]; try reflexivity.
    destruct u; reflexivity.
  - apply trim_start_plain; vm_compute; split; reflexivity.
Qed.

(** [parseInt] reads the digits it is handed, with or without the radix
    10. *)
Lemma parseInt_of_digits (sign : Z) (prefix : string) (u : Decimal.uint) :
  u <> Decimal.Nil ->
  strip_sign (trim_start (String.append prefix (NilEmpty.string_of_uint u)))
    = (sign, NilEmpty.string_of_uint u) ->
  forall v, ToString v = Returns (String.append prefix (NilEmpty.string_of_uint u)) ->
  parseInt v 0 = Returns (number (sign =? -1) (Z.of_N (Pos.of_uint u))) /\
  parseInt v 10 = Returns (number (sign =? -1) (Z.of_N (Pos.of_uint u))).
Proof.
  intros Hu Hs v Hv.
  destruct (numeral_as_parsed u Hu) as (_ & _ & Hx & _).
  split; unfold parseInt; rewrite Hv, Hs.
  - change ((0 =? 0) || ((2 <=? 0) && (0 <=? 36))) with true.
    change ((0 =? 0) || (0 =? 16)) with true. cbv iota.
    rewrite Hx. change (0 =? 0) with true. cbv iota.
    rewrite digits_from_none by assumption. reflexivity.
  - change ((10 =? 0) || ((2 <=? 10) && (10 <=? 36))) with true.
    change ((10 =? 0) || (10 =? 16)) with false. cbv iota.
    rewrite digits_from_none by assumption. reflexivity.
Qed.

(** What [parseInt] reads in the decimal writing of an integer. *)
Lemma parseInt_of_decimal (v : value) (z : Z) :
  ToString v = Returns (NilZero.string_of_int (Z.to_int z)) ->
  parseInt v 0 = Returns (number (z <? 0) (Z.abs z)) /\
  parseInt v 10 = Returns (number (z <? 0) (Z.abs z)).
Proof.
  destruct z as [|p|p]; intros Hv.
  - split; unfold parseInt; rewrite Hv; reflexivity.
  - pose proof (Unsigned.to_uint_nonnil p) as Hn.
    destruct (numeral_as_parsed _ Hn) as (Ht & Hs & _ & Hm).
    destruct (parseInt_of_digits 1 "" (Pos.to_uint p) Hn) with (v := v) as [P0 P10].
    + cbn [append]. rewrite Ht. exact Hs.
    + rewrite Hv. cbn [Z.to_int NilZero.string_of_int append].
      destruct (Pos.to_uint p); [contradiction| ..]; reflexivity.
    + rewrite DecimalPos.Unsigned.of_to in P0, P10. split; assumption.
  - pose proof (Unsigned.to_uint_nonnil p) as Hn.
    destruct (numeral_as_parsed _ Hn) as (Ht & Hs & _ & Hm).
    destruct (parseInt_of_digits (-1) "-" (Pos.to_uint p) Hn) with (v := v) as [P0 P10].
    + cbn [append]. rewrite Hm. reflexivity.
    + rewrite Hv. cbn [Z.to_int NilZero.string_of_int append].
      destruct (Pos.to_uint p); [contradiction| ..]; reflexivity.
    + rewrite DecimalPos.Unsigned.of_to in P0, P10. split; assumption.
Qed.

(** *** Rounding *)

Lemma nearest_multiple_reads_back (n u c : Z) :
  nearest_multiple n u = Some c -> rounds_to n c = true.
Proof.
  unfold nearest_multiple. cbv zeta.
  destruct (rounds_to n (n / u * u)) eqn:Elo, (rounds_to n (n / u * u + u)) eqn:Ehi;
    intros E; try discriminate E; injection E as <-; try assumption.
  destruct (_ <? _); [assumption|]. destruct (_ <? _); [assumption|].
  destruct (Z.even _); assumption.
Qed.

Lemma first_some_reads_back (n : Z) (f : nat -> option Z) (l : list nat) (c : Z) :
  (forall k c, f k = Some c -> rounds_to n c = true) ->
  first_some f l = Some c -> rounds_to n c = true.
Proof.
  intros Hf. induction l as [|k l IH]; cbn [first_some]; [discriminate|].
  destruct (f k) as [c'|] eqn:E; [|exact IH].
  intros I. injection I as <-. eapply Hf, E.
Qed.

(** The digits a binary64 number is written with are read back as it. *)
Lemma shortest_reads_back (n : Z) :
  rounds_to n n = true -> rounds_to n (shortest n) = true.
Proof.
  intros Hn. unfold shortest. cbv zeta.
  destruct (first_some _ _) as [c|] eqn:E; [|exact Hn].
  eapply first_some_reads_back; [|exact E].
  intros k c'. apply nearest_multiple_reads_back.
Qed.

(** Nothing from 1e21 on is rounded to a number below 1e21, which is a
    binary64 number itself. *)
Lemma round_binary64_from_1e21 (c m : Z) :
  10 ^ 21 <= c -> round_binary64 c = Some m -> 10 ^ 21 <= m.
Proof.
  intros Hc. unfold round_binary64.
  change (10 ^ 21) with 1000000000000000000000 in *.
  change (2 ^ 53) with 9007199254740992.
  destruct (Z.ltb_spec c 9007199254740992); [lia|]. cbv zeta.
  assert (He : 17 <= Z.log2 c - 52).
  { pose proof (Z.log2_le_mono 1000000000000000000000 c Hc) as L.
    change (Z.log2 1000000000000000000000) with 69 in L. lia. }
  set (e := Z.log2 c - 52) in *.
  assert (Hq : 2 ^ 52 * 2 ^ e <= c).
  { rewrite <- Z.pow_add_r by lia. replace (52 + e) with (Z.log2 c) by lia.
    apply Z.log2_spec. lia. }
  rewrite Z.shiftr_div_pow2 by lia.
  set (q := c / 2 ^ e) in *.
  set (q' := if _ <? _ then q else _).
  assert (Hq' : q <= q').
  { subst q'. destruct (_ <? _); [lia|]. destruct (_ <? _); [lia|].
    destruct (Z.even q); lia. }
  rewrite Z.shiftl_mul_pow2 by lia.
  destruct (q' * 2 ^ e <? 2 ^ 1024); [|intros E; discriminate E].
  intros E. injection E as <-.
  assert (Hp : 0 < 2 ^ e) by (apply Z.pow_pos_nonneg; lia).
  destruct (Z.le_gt_cases 22 e) as [Hbig|Hsmall].
  - assert (2 ^ 52 <= q).
    { subst q. apply Z.div_le_lower_bound; lia. }
    assert (2 ^ 22 <= 2 ^ e) by (apply Z.pow_le_mono_r; lia).
    change (2 ^ 52) with 4503599627370496 in *. change (2 ^ 22) with 4194304 in *. nia.
  - assert (Hcases : e = 17 \/ e = 18 \/ e = 19 \/ e = 20 \/ e = 21) by lia.
    assert (Hdiv : 1000000000000000000000 = 1000000000000000000000 / 2 ^ e * 2 ^ e).
    { destruct Hcases as [->|[->|[->|[->| ->]]]]; reflexivity. }
    assert (1000000000000000000000 / 2 ^ e <= q).
    { subst q. apply Z.div_le_mono; lia. }
    nia.
Qed.

(** [parseInt] gives back the integer it is handed, a binary64 number below
    1e21 in magnitude, with or without the radix 10. *)
Lemma parseInt_of_integer (z : Z) :
  is_binary64 z = true ->
  Z.abs z < 10 ^ 21 ->
  parseInt (VNum z) 0 = Returns (VNum z) /\ parseInt (VNum z) 10 = Returns (VNum z).
Proof.
  unfold is_binary64. intros Hb Hz.
  pose proof (shortest_reads_back _ Hb) as Hc.
  set (c := shortest (Z.abs z)) in *.
  unfold rounds_to in Hc.
  destruct (round_binary64 c) as [m|] eqn:Er; [|discriminate].
  apply Z.eqb_eq in Hc. subst m.
  assert (Hlt : c < 10 ^ 21).
  { destruct (Z.lt_ge_cases c (10 ^ 21)) as [|Hge]; [assumption|].
    pose proof (round_binary64_from_1e21 _ _ Hge Er). lia. }
  assert (Hpos : 0 <= c /\ (c = 0 -> z = 0)).
  { unfold round_binary64 in Er. destruct (c <? 2 ^ 53) eqn:Ec.
    - injection Er as ->. lia.
    - apply Z.ltb_ge in Ec. change (2 ^ 53) with 9007199254740992 in Ec. lia. }
  destruct (parseInt_of_decimal (VNum z) (Z.sgn z * c)) as [P0 P10].
  { cbn [ToString]. unfold Number_toString. fold c.
    rewrite (proj2 (Z.ltb_lt _ _) Hlt). reflexivity. }
  assert (N : number (Z.sgn z * c <? 0) (Z.abs (Z.sgn z * c)) = VNum z).
  { destruct Hpos as [H0 H1]. unfold number.
    destruct z as [|p|p].
    - replace c with 0 in * by (cbn in Hb |- *; vm_compute in Er; subst c; reflexivity).
      reflexivity.
    - cbn [Z.sgn]. rewrite Z.mul_1_l, Z.abs_eq by assumption.
      rewrite Er. rewrite (proj2 (Z.ltb_ge _ _) H0). reflexivity.
    - cbn [Z.sgn]. assert (0 < c) by (destruct (Z.eq_dec c 0) as [E|]; [discriminate (H1 E)|lia]).
      replace (Z.abs (-1 * c)) with c by lia. rewrite Er.
      rewrite (proj2 (Z.ltb_lt (-1 * c) 0)) by lia.
      cbn [Z.abs]. reflexivity. }
  rewrite N in P0, P10. split; assumption.
Qed.

Section Bounds.

Context {World : Type} `{Collaborators World}.

(** X15.  An integer in [startIndex] is the start of the query as it is;
    one in [stopIndex] or [line] likewise unless it is 0, which counts as
    absent: the stop is then 30 and no line is given.  (The integer is a
    binary64 number below 1e21 in magnitude, where JavaScript writes a
    number in plain decimal, and the numeric fields have each a string
    form.) *)
Theorem getLogEntries_integer_bounds
    (args file : value) (k : string) (n : Z) (st : state World) :
  In k numeric_fields ->
  field args k = VNum n ->
  is_binary64 n = true ->
  Z.abs n < 10 ^ 21 ->
  parsable args = true ->
  (if truthy (field args "file") then Uri_file (field args "file") else Returns VUndef)
    = Returns file ->
  exists startIndex stopIndex branch searchText lineNumber author,
    ((k = "startIndex" -> startIndex = VNum n) /\
     (k = "stopIndex" -> stopIndex = if n =? 0 then VNum 30 else VNum n) /\
     (k = "line" -> lineNumber = if n =? 0 then VUndef else VNum n)) /\
    calls (since st (snd (getLogEntries args st))) =
      [GitGetLogEntries startIndex stopIndex branch searchText file lineNumber author].
Proof.
  intros Hk Hf Hb Hlt Hp Hfile.
  assert (Hn : nullish args = false) by (destruct args; try reflexivity; discriminate).
  destruct (parseInt_of_integer n Hb Hlt) as [P0 P10].
  destruct (parsable_bounds args Hp) as (startIndex & stopIndex & lineNumber & E1 & E2 & E3).
  pose proof (getLogEntries_run args _ _ _ _ st Hn E1 E2 E3 Hfile) as Hrun.
  cbv zeta in Hrun.
  match type of Hrun with
  | context [respond (GitGetLogEntries ?a ?b ?c ?d ?e ?f ?g) (world st)] =>
      exists a, b, c, d, f, g
  end.
  split.
  - destruct Hk as [<-|[<-|[<-|[]]]]; repeat split; intros E; try discriminate E.
    + rewrite Hf in E1. cbn [truthy] in E1.
      destruct (Z.eqb_spec n 0) as [->|Hz]; cbn [negb] in E1; congruence.
    + rewrite Hf in E2. cbn [truthy] in E2.
      destruct (Z.eqb_spec n 0) as [->|Hz]; cbn [negb] in E2; congruence.
    + rewrite Hf in E3. cbn [truthy] in E3.
      destruct (Z.eqb_spec n 0) as [->|Hz]; cbn [negb] in E3; congruence.
  - rewrite Hrun. destruct (respond _ (world st)) as [[entries|e] w];
      cbn [snd]; erewrite since_extension by reflexivity; reflexivity.
Qed.

End Bounds.

(** ** Failures on the way *)

Section Failures.

Context {World : Type} `{Collaborators World}.

Lemma forEach_dispose_stops (before after : list subscription) (d : subscription) :
  (forall s w, In s before -> exists v w', respond (SubscriptionDispose s) w = (Returns v, w')) ->
  (forall w, exists e w', respond (SubscriptionDispose d) w = (Throws e, w')) ->
  forall st : state World,
  exists e w',
    forEach (before ++ d :: after) (fun s => invoke (SubscriptionDispose s)) st =
      (Throws e,
       {| this := this st; world := w'; trace := trace st ++ released (before ++ [d]) |}).
Proof.
  intros Hb Hd. induction before as [|s before IH]; intro st.
  - destruct (Hd (world st)) as (e & w' & E). exists e, w'.
    cbn [app forEach]. unfold bind, invoke. rewrite E. reflexivity.
  - destruct (Hb s (world st) (or_introl eq_refl)) as (v & w1 & E1).
    destruct (IH (fun s' w Hin => Hb s' w (or_intror Hin))
                 {| this := this st; world := w1;
                    trace := trace st ++ [Called (SubscriptionDispose s)] |})
      as (e & w' & E).
    exists e, w'. cbn [app forEach]. unfold bind at 1. unfold invoke at 1.
    rewrite E1, E. cbn [this trace]. rewrite <- app_assoc. reflexivity.
Qed.

(** X16.  [dispose] stops at the first subscription that throws when it is
    disposed of: the subscriptions before it have been asked, in order, the
    ones after it are not asked at all, and [dispose] throws. *)
Theorem dispose_stops_at_first_failure
    (a : value) (before after : list subscription) (d : subscription)
    (st : state World) :
  disposable (this st) = before ++ d :: after ->
  (forall s w, In s before -> exists v w', respond (SubscriptionDispose s) w = (Returns v, w')) ->
  (forall w, exists e w', respond (SubscriptionDispose d) w = (Throws e, w')) ->
  exists e w',
    dispose a st =
      (Throws e,
       {| this := this st; world := w'; trace := trace st ++ released (before ++ [d]) |}).
Proof.
  intros Hheld Hb Hd. unfold dispose, bind, read_this. rewrite Hheld.
  apply forEach_dispose_stops; assumption.
Qed.

(** X17.  With an origin type resolved that no provider supports, and no
    provider that supports [GitOriginType.any] either, [getAvatars] throws a
    [TypeError]: no provider is asked. *)
Theorem getAvatars_without_generic_provider_throws
    (args originType : value) (st : state World) (w1 : World) :
  respond GitGetOriginType (world st) = (Returns originType, w1) ->
  truthy originType = true ->
  (forall q, In q avatarProviders -> supported q originType = false) ->
  (forall q, In q avatarProviders -> supported q GitOriginType_any = false) ->
  getAvatars args st =
    (Throws TypeError,
     {| this := this st; world := w1; trace := trace st ++ [Called GitGetOriginType] |}).
Proof.
  intros Ho Ht Hnone Hany.
  unfold getAvatars, bind. unfold invoke at 1. rewrite Ho, Ht. cbn [negb]. cbv zeta.
  rewrite (find_nowhere (fun item => supported item originType) avatarProviders Hnone).
  rewrite (find_nowhere (fun item => supported item GitOriginType_any)
             avatarProviders Hany).
  reflexivity.
Qed.

(** X18.  [getCommit] returns a commit only after handing it to the commit
    viewer: when it returns [commit], the git service has given a root, a
    current branch and, for the hash looked up without forced refresh,
    [commit], and the last call was
    [viewCommitTree(CommitDetails(root, branch, commit))] on these very
    values, which returned; and whenever the viewer is called at all, it is
    after these three calls and with what they returned. *)
Theorem getCommit_shows_what_it_returns
    (args : value) (st st' : state World) (o : outcome value) :
  getCommit args st = (o, st') ->
  (forall commit, o = Returns commit ->
     exists g b x w1 w2 w3,
       respond GitGetGitRoot (world st) = (Returns g, w1) /\
       respond GitGetCurrentBranch w1 = (Returns b, w2) /\
       respond (GitGetCommit (field args "hash") VUndef) w2 = (Returns commit, w3) /\
       respond (ViewCommitTree (CommitDetails g b commit)) w3 = (Returns x, world st') /\
       calls (since st st') =
         [GitGetGitRoot; GitGetCurrentBranch; GitGetCommit (field args "hash") VUndef;
          ViewCommitTree (CommitDetails g b commit)]) /\
  (forall d, In (ViewCommitTree d) (calls (since st st')) ->
     exists g b c w1 w2 w3,
       respond GitGetGitRoot (world st) = (Returns g, w1) /\
       respond GitGetCurrentBranch w1 = (Returns b, w2) /\
       respond (GitGetCommit (field args "hash") VUndef) w2 = (Returns c, w3) /\
       d = CommitDetails g b c /\
       calls (since st st') =
         [GitGetGitRoot; GitGetCurrentBranch; GitGetCommit (field args "hash") VUndef;
          ViewCommitTree d]).
Proof.
  intros E. unfold getCommit, bind, lift, invoke, ret in E.
  unfold get in E. destruct (nullish args).
  { inversion E; subst. unfold since. rewrite skipn_all. split.
    - intros c Hc. discriminate Hc.
    - intros d []. }
  destruct (respond GitGetGitRoot (world st)) as [[g|e1] w1] eqn:R1;
    cbn [this world trace] in E.
  2:{ inversion E; subst. erewrite since_extension by reflexivity. split.
      - intros c Hc. discriminate Hc.
      - intros d [Hd|[]]. discriminate Hd. }
  destruct (respond GitGetCurrentBranch w1) as [[b|e2] w2] eqn:R2;
    cbn [this world trace] in E.
  2:{ inversion E; subst.
      rewrite (since_extension st _ [Called GitGetGitRoot; Called GitGetCurrentBranch])
        by (cbn [trace]; rewrite <- app_assoc; reflexivity).
      split.
      - intros c Hc. discriminate Hc.
      - intros d [Hd|[Hd|[]]]; discriminate Hd. }
  destruct (respond (GitGetCommit (field args "hash") VUndef) w2) as [[c|e3] w3] eqn:R3;
    cbn [this world trace] in E.
  2:{ inversion E; subst.
      rewrite (since_extension st _ [Called GitGetGitRoot; Called GitGetCurrentBranch;
                                     Called (GitGetCommit (field args "hash") VUndef)])
        by (cbn [trace]; rewrite <- !app_assoc; reflexivity).
      split.
      - intros c Hc. discriminate Hc.
      - intros d [Hd|[Hd|[Hd|[]]]]; discriminate Hd. }
  assert (Hs : forall o' w4,
             (o', {| this := this st; world := w4;
                     trace := (((trace st ++ [Called GitGetGitRoot])
                                 ++ [Called GitGetCurrentBranch])
                                 ++ [Called (GitGetCommit (field args "hash") VUndef)])
                                 ++ [Called (ViewCommitTree (CommitDetails g b c))] |})
             = (o, st') ->
             world st' = w4 /\
             calls (since st st') =
               [GitGetGitRoot; GitGetCurrentBranch;
                GitGetCommit (field args "hash") VUndef;
                ViewCommitTree (CommitDetails g b c)]).
  { intros o' w4 E'. inversion E'; subst. split; [reflexivity|].
    rewrite (since_extension st _ [Called GitGetGitRoot; Called GitGetCurrentBranch;
                                   Called (GitGetCommit (field args "hash") VUndef);
                                   Called (ViewCommitTree (CommitDetails g b c))])
      by (cbn [trace]; rewrite <- !app_assoc; reflexivity).
    reflexivity. }
  destruct (respond (ViewCommitTree (CommitDetails g b c)) w3) as [[x|e4] w4] eqn:R4;
    cbn [this world trace] in E; destruct (Hs _ _ E) as [Hw Hc]; rewrite Hc.
  - split.
    + intros commit Ho. rewrite Ho in E. injection E as -> _.
      exists g, b, x, w1, w2, w3. rewrite Hw. auto.
    + intros d [Hd|[Hd|[Hd|[Hd|[]]]]]; try discriminate Hd.
      injection Hd as <-. exists g, b, c, w1, w2, w3. auto.
  - split.
    + intros commit Ho. rewrite Ho in E. discriminate E.
    + intros d [Hd|[Hd|[Hd|[Hd|[]]]]]; try discriminate Hd.
      injection Hd as <-. exists g, b, c, w1, w2, w3. auto.
Qed.

End Failures.

(** ** The further theorems at work *)

(** Removing the tag "v1" of the commit "abc". *)
Lemma doActionRef_removes_then_refetches_witness :
  let args := VObj [("name", VStr "removeTag"); ("hash", VStr "abc");
                    ("ref", VObj [("name", VStr "v1")])] in
  let st := start (World := script) [] in
  let removal := GitRemoveTag (VStr "v1") in
  let st1 w := {| this := this st; world := w; trace := trace st ++ [Called removal] |} in
  (forall x w, respond removal (world st) = (Returns x, w) ->
      doActionRef args st = invoke (GitGetCommit (VStr "abc") (VBool true)) (st1 w)) /\
  (forall e w, respond removal (world st) = (Throws e, w) ->
      doActionRef args st = (Throws e, st1 w)).
Proof.
  exact (doActionRef_removes_then_refetches (H := Scripted)
           (VObj [("name", VStr "removeTag"); ("hash", VStr "abc");
                  ("ref", VObj [("name", VStr "v1")])])
           "removeTag" GitRemoveTag "abc" (start [])
           (or_introl eq_refl) eq_refl eq_refl eq_refl).
Defined.

(** An action without a case, an escaped hash, no ref. *)
Lemma doActionRef_other_action_only_refetches_witness :
  let args := VObj [("name", VStr "checkout"); ("hash", VStr "a%2Fb")] in
  let st := start (World := script) [] in
  doActionRef args st = invoke (GitGetCommit (VStr "a/b") (VBool true)) st.
Proof.
  exact (doActionRef_other_action_only_refetches (H := Scripted)
           (VObj [("name", VStr "checkout"); ("hash", VStr "a%2Fb")]) "a/b" (start [])
           eq_refl eq_refl eq_refl).
Defined.

(** [removeTag] without a ref. *)
Lemma doActionRef_fails_before_any_call_witness :
  let args := VObj [("name", VStr "removeTag"); ("hash", VStr "abc")] in
  let st := start (World := script) [] in
  (forall e, decodeURIComponent (field args "hash") = Throws e ->
      doActionRef args st = (Throws e, st)) /\
  (forall hash,
      decodeURIComponent (field args "hash") = Returns hash ->
      is_one_of (field args "name") doActionRef_cases = true ->
      nullish (field args "ref") = true ->
      doActionRef args st = (Throws TypeError, st)).
Proof.
  exact (doActionRef_fails_before_any_call (H := Scripted)
           (VObj [("name", VStr "removeTag"); ("hash", VStr "abc")]) (start []) eq_refl).
Defined.

(** A hard reset to "abc". *)
Lemma doAction_reset_keeps_log_entry_witness :
  let logEntry := VObj [("hash", VObj [("full", VStr "abc")]);
                        ("refs", VArr [VObj [("type", VNum 0); ("name", VStr "main")]])] in
  let args := VObj [("name", VStr "reset_hard"); ("logEntry", logEntry)] in
  let st := start (World := script) [] in
  let st' w := {| this := this st; world := w;
                  trace := trace st ++ [Called GitGetGitRoot; Called GitGetCurrentBranch;
                                        Called (GitReset (VStr "abc") (VBool true))] |} in
  (forall x w, respond (GitReset (VStr "abc") (VBool true)) [] = (Returns x, w) ->
      doAction args st = (Returns logEntry, st' w)) /\
  (forall e w, respond (GitReset (VStr "abc") (VBool true)) [] = (Throws e, w) ->
      doAction args st = (Throws e, st' w)).
Proof.
  exact (doAction_reset_keeps_log_entry (H := Scripted)
           (VObj [("name", VStr "reset_hard");
                  ("logEntry",
                   VObj [("hash", VObj [("full", VStr "abc")]);
                         ("refs", VArr [VObj [("type", VNum 0); ("name", VStr "main")]])])])
           (VStr "abc") "reset_hard" (VBool true) "undefined" (start [])
           VUndef VUndef [] [] (or_introl eq_refl) eq_refl eq_refl eq_refl eq_refl eq_refl).
Defined.

(** The action "cherrypick" has no case. *)
Lemma doAction_default_runs_command_witness :
  let logEntry := VObj [("hash", VObj [("full", VStr "abc")])] in
  let args := VObj [("name", VStr "cherrypick"); ("logEntry", logEntry)] in
  let st := start (World := script) [Returns (VStr "/repo"); Returns (VStr "main")] in
  let command := ExecuteCommand "git.commit.doSomething"
                                (CommitDetails (VStr "/repo") (VStr "main") logEntry) in
  let st' w := {| this := this st; world := w;
                  trace := trace st ++ [Called GitGetGitRoot; Called GitGetCurrentBranch;
                                        Called command] |} in
  (forall x w, respond command [] = (Returns x, w) ->
      doAction args st = (Returns logEntry, st' w)) /\
  (forall e w, respond command [] = (Throws e, w) ->
      doAction args st = (Throws e, st' w)).
Proof.
  exact (doAction_default_runs_command (H := Scripted)
           (VObj [("name", VStr "cherrypick");
                  ("logEntry", VObj [("hash", VObj [("full", VStr "abc")])])])
           "undefined" (start [Returns (VStr "/repo"); Returns (VStr "main")])
           (VStr "/repo") (VStr "main") [Returns (VStr "main")] []
           eq_refl eq_refl eq_refl eq_refl eq_refl).
Defined.

(** A hard reset with the value "100%". *)
Lemma doAction_malformed_value_changes_nothing_witness :
  let args := VObj [("name", VStr "reset_hard"); ("value", VStr "100%");
                    ("logEntry", VObj [("hash", VObj [("full", VStr "abc")])])] in
  let st := start (World := script) [] in
  doAction args st =
    (Throws URIError,
     {| this := this st; world := [];
        trace := trace st ++ [Called GitGetGitRoot; Called GitGetCurrentBranch] |}).
Proof.
  exact (doAction_malformed_value_changes_nothing (H := Scripted)
           (VObj [("name", VStr "reset_hard"); ("value", VStr "100%");
                  ("logEntry", VObj [("hash", VObj [("full", VStr "abc")])])])
           URIError (start []) VUndef VUndef [] [] eq_refl eq_refl eq_refl eq_refl).
Defined.

(** A new tag on a log entry without refs. *)
Lemma doAction_creates_before_push_fails_witness :
  let args := VObj [("name", VStr "newtag"); ("value", VStr "v1");
                    ("logEntry", VObj [("hash", VObj [("full", VStr "abc")])])] in
  let st := start (World := script) [] in
  doAction args st =
    (Throws TypeError,
     {| this := this st; world := [];
        trace := trace st ++ [Called GitGetGitRoot; Called GitGetCurrentBranch;
                              Called (GitCreateTag (VStr "v1") (VStr "abc"))] |}).
Proof.
  exact (doAction_creates_before_push_fails (H := Scripted)
           (VObj [("name", VStr "newtag"); ("value", VStr "v1");
                  ("logEntry", VObj [("hash", VObj [("full", VStr "abc")])])])
           (VStr "abc") "newtag" (VNum 2) GitCreateTag "v1" (start [])
           VUndef VUndef VUndef [] [] []
           (or_introl eq_refl) eq_refl eq_refl eq_refl eq_refl eq_refl eq_refl eq_refl).
Defined.

(** The branch "feature/x". *)
Lemma doAction_plain_value_is_the_name_witness :
  let logEntry := VObj [("hash", VObj [("full", VStr "abc")]); ("refs", VArr [])] in
  let args := VObj [("name", VStr "newbranch"); ("value", VStr "feature/x");
                    ("logEntry", logEntry)] in
  let st := start (World := script) [] in
  doAction args st =
    (Returns (with_field logEntry "refs"
                (VArr ([] ++ [VObj [("type", VNum 0); ("name", VStr "feature/x")]]))),
     {| this := this st; world := [];
        trace := trace st ++ [Called GitGetGitRoot; Called GitGetCurrentBranch;
                              Called (GitCreateBranch (VStr "feature/x") (VStr "abc"))] |}).
Proof.
  exact (doAction_plain_value_is_the_name (H := Scripted)
           (VObj [("name", VStr "newbranch"); ("value", VStr "feature/x");
                  ("logEntry", VObj [("hash", VObj [("full", VStr "abc")]);
                                     ("refs", VArr [])])])
           (VStr "abc") "newbranch" (VNum 0) GitCreateBranch "feature/x" [] (start [])
           VUndef VUndef VUndef [] [] []
           (or_intror eq_refl) eq_refl eq_refl eq_refl eq_refl eq_refl
           eq_refl eq_refl eq_refl).
Defined.

(** A message that names a data field. *)
Lemma every_message_answered_once_witness :
  let message := inbound "gitService" (VStr "r1") VNull in
  let st := start (World := script) [] in
  exists reply st',
    postMessageParser message st = (Returns VUndef, st') /\
    ((exists result, reply = success_envelope (field message "requestId") result) \/
     (exists e, reply = error_envelope (field message "requestId") e)) /\
    envelopes (since st st') = [reply].
Proof.
  refine (every_message_answered_once (H := Scripted)
            (inbound "gitService" (VStr "r1") VNull) (start []) eq_refl _).
  intro E. discriminate E.
Defined.

(** A registration wrapped in a message that names the parser. *)
Lemma reentrant_message_dispatches_its_payload_witness :
  let inner := inbound "registerState" (VStr "r2") (VObj [("requestId", VStr "A")]) in
  let message := inbound "postMessageParser" (VStr "r1") inner in
  let st := start (World := script) [] in
  (nullish inner = false ->
   exists st1,
     postMessageParser inner st = (Returns VUndef, st1) /\
     postMessageParser message st =
       (Returns VUndef, emit (PostMessage (success_envelope (VStr "r1") VUndef)) st1)) /\
  (nullish inner = true ->
   postMessageParser message st =
     (Returns VUndef,
      emit (PostMessage (error_envelope (VStr "r1") TypeError))
           (emit (ShowErrorMessage TypeError) (emit (ShowErrorMessage TypeError) st)))).
Proof.
  exact (reentrant_message_dispatches_its_payload (H := Scripted)
           (inbound "postMessageParser" (VStr "r1")
              (inbound "registerState" (VStr "r2") (VObj [("requestId", VStr "A")])))
           (start []) eq_refl eq_refl).
Defined.

(** The payload [null]. *)
Lemma handlers_reject_missing_payload_witness :
  let st := start (World := script) [] in
  getLogEntries VNull st = (Throws TypeError, st) /\
  getCommit VNull st = (Throws TypeError, st) /\
  doActionRef VNull st = (Throws TypeError, st) /\
  registerState VNull st = (Throws TypeError, st) /\
  (forall g b w1 w2,
      respond GitGetGitRoot (world st) = (Returns g, w1) ->
      respond GitGetCurrentBranch w1 = (Returns b, w2) ->
      let st' := {| this := this st; world := w2;
                    trace := trace st ++ [Called GitGetGitRoot;
                                          Called GitGetCurrentBranch] |} in
      doAction VNull st = (Throws TypeError, st') /\
      doSomethingWithCommit VNull st = (Throws TypeError, st') /\
      selectCommittedFile VNull st = (Throws TypeError, st')).
Proof.
  exact (handlers_reject_missing_payload (H := Scripted) VNull (start []) eq_refl).
Defined.

(** [getAvatars] with no origin type: it posts, yet no envelope. *)
Lemma handlers_leave_answering_to_the_dispatcher_witness :
  let st := start (World := script) [] in
  let st' := snd (getAvatars VUndef st) in
  shown (since st st') = [] /\
  envelopes (since st st') = [] /\
  ("getAvatars" <> "registerState" -> this st' = this st) /\
  ("getAvatars" <> "getAvatars" -> posted (since st st') = []).
Proof.
  exact (handlers_leave_answering_to_the_dispatcher (H := Scripted)
           "getAvatars" getAvatars VUndef (start [])
           (snd (getAvatars VUndef (start [])))
           (fst (getAvatars VUndef (start []))) eq_refl eq_refl).
Defined.

(** A start index of 50 beside a stop index given as a string. *)
Lemma getLogEntries_integer_bounds_witness :
  let args := VObj [("startIndex", VNum 50); ("stopIndex", VStr "80")] in
  let st := start (World := script) [] in
  exists startIndex stopIndex branch searchText lineNumber author,
    (("startIndex" = "startIndex" -> startIndex = VNum 50) /\
     ("startIndex" = "stopIndex" -> stopIndex = VNum 50) /\
     ("startIndex" = "line" -> lineNumber = VNum 50)) /\
    calls (since st (snd (getLogEntries args st))) =
      [GitGetLogEntries startIndex stopIndex branch searchText VUndef lineNumber author].
Proof.
  exact (getLogEntries_integer_bounds (H := Scripted)
           (VObj [("startIndex", VNum 50); ("stopIndex", VStr "80")]) VUndef
           "startIndex" 50 (start [])
           (or_introl eq_refl) eq_refl eq_refl eq_refl eq_refl eq_refl).
Defined.

(** The first of the two subscriptions throws. *)
Lemma dispose_stops_at_first_failure_witness :
  let st := start (World := unit) tt in
  exists e w',
    dispose (H := Brittle) VUndef st =
      (Throws e,
       {| this := this st; world := w';
          trace := trace st ++ released ([] ++ [OnDidReceiveMessage]) |}).
Proof.
  refine (dispose_stops_at_first_failure (H := Brittle) VUndef
            [] [OnStateChanged] OnDidReceiveMessage (start tt) eq_refl _ _).
  - intros s w [].
  - intros w. exists (VStr "disposed"), w. reflexivity.
Defined.

(** Origin type 3 and no provider at all. *)
Lemma getAvatars_without_generic_provider_throws_witness :
  let st := start (World := script) [Returns (VNum 3)] in
  getAvatars (H := Unprovided) VUndef st =
    (Throws TypeError,
     {| this := this st; world := []; trace := trace st ++ [Called GitGetOriginType] |}).
Proof.
  refine (getAvatars_without_generic_provider_throws (H := Unprovided)
            VUndef (VNum 3) (start [Returns (VNum 3)]) [] eq_refl eq_refl _ _);
    intros q [].
Defined.

(** The commit "abc" of the branch "main". *)
Lemma getCommit_shows_what_it_returns_witness :
  let args := VObj [("hash", VStr "abc")] in
  let commit := VObj [("subject", VStr "Initial commit")] in
  let st := start (World := script)
              [Returns (VStr "/repo"); Returns (VStr "main"); Returns commit] in
  let st' := snd (getCommit args st) in
  (forall c, fst (getCommit args st) = Returns c ->
     exists g b x w1 w2 w3,
       respond (Collaborators := Scripted) GitGetGitRoot (world st) = (Returns g, w1) /\
       respond (Collaborators := Scripted) GitGetCurrentBranch w1 = (Returns b, w2) /\
       respond (Collaborators := Scripted) (GitGetCommit (field args "hash") VUndef) w2
         = (Returns c, w3) /\
       respond (Collaborators := Scripted) (ViewCommitTree (CommitDetails g b c)) w3
         = (Returns x, world st') /\
       calls (since st st') =
         [GitGetGitRoot; GitGetCurrentBranch; GitGetCommit (field args "hash") VUndef;
          ViewCommitTree (CommitDetails g b c)]) /\
  (forall d, In (ViewCommitTree d) (calls (since st st')) ->
     exists g b c w1 w2 w3,
       respond (Collaborators := Scripted) GitGetGitRoot (world st) = (Returns g, w1) /\
       respond (Collaborators := Scripted) GitGetCurrentBranch w1 = (Returns b, w2) /\
       respond (Collaborators := Scripted) (GitGetCommit (field args "hash") VUndef) w2
         = (Returns c, w3) /\
       d = CommitDetails g b c /\
       calls (since st st') =
         [GitGetGitRoot; GitGetCurrentBranch; GitGetCommit (field args "hash") VUndef;
          ViewCommitTree d]).
Proof.
  exact (getCommit_shows_what_it_returns (H := Scripted)
           (VObj [("hash", VStr "abc")])
           (start [Returns (VStr "/repo"); Returns (VStr "main");
                   Returns (VObj [("subject", VStr "Initial commit")])])
           _ _ eq_refl).
Defined.

(** ** Methods within reach of a message *)

Section Reach.

Context {World : Type} `{Collaborators World}.

(** X19.  A message that names [dispose] disposes of the controller's
    subscriptions: as long as no subscription throws, each held
    subscription is asked to dispose, in order, and the message is then
    answered with a success envelope of payload [undefined].  A message that
    names [getWebviewPanel] is answered with the panel and calls nothing. *)
Theorem methods_answer_like_commands (message : value) (st : state World) :
  nullish message = false ->
  (ToString (field message "cmd") = Returns "dispose" ->
   (forall s w, exists v w', respond (SubscriptionDispose s) w = (Returns v, w')) ->
   exists w',
     postMessageParser message st =
       (Returns VUndef,
        emit (PostMessage (success_envelope (field message "requestId") VUndef))
             {| this := this st; world := w';
                trace := trace st ++ released (disposable (this st)) |})) /\
  (ToString (field message "cmd") = Returns "getWebviewPanel" ->
   postMessageParser message st =
     (Returns VUndef,
      emit (PostMessage (success_envelope (field message "requestId") webviewPanel)) st)).
Proof.
  intros Hn. split.
  - intros Hc Hcalm.
    destruct (dispose_run (field message "payload") st Hcalm) as (w' & E).
    exists w'. rewrite postMessageParser_unfold.
    eapply dispatch_returns; eauto. reflexivity.
  - intros Hc. rewrite postMessageParser_unfold.
    eapply dispatch_returns with (f := getWebviewPanel); eauto.
Qed.

End Reach.

(** A [dispose] message among calm collaborators. *)
Lemma methods_answer_like_commands_witness :
  let message := inbound "dispose" (VStr "r1") (VObj []) in
  let st := start (World := unit) tt in
  (ToString (field message "cmd") = Returns "dispose" ->
   (forall s w, exists v w',
       respond (Collaborators := Calm) (SubscriptionDispose s) w = (Returns v, w')) ->
   exists w',
     postMessageParser (H := Calm) message st =
       (Returns VUndef,
        emit (PostMessage (success_envelope (field message "requestId") VUndef))
             {| this := this st; world := w';
                trace := trace st ++ released (disposable (this st)) |})) /\
  (ToString (field message "cmd") = Returns "getWebviewPanel" ->
   postMessageParser (H := Calm) message st =
     (Returns VUndef,
      emit (PostMessage (success_envelope (field message "requestId") webviewPanel)) st)).
Proof.
  exact (methods_answer_like_commands (H := Calm)
           (inbound "dispose" (VStr "r1") (VObj [])) (start tt) eq_refl).
Defined.

(** ** Numeric fields without a string form *)

Lemma ToString_throws_TypeError :
  forall (v e : value), ToString v = Throws e -> e = TypeError.
Proof.
  fix IH 1. intros v e. destruct v as [ | |b|z| |negative| |s|xs|fs|c a];
    cbn [ToString]; try discriminate.
  - destruct b; discriminate.
  - set (elements := fix elements (xs : list value) : outcome (list string) := _).
    assert (Hel : forall l, elements xs = Throws l -> l = TypeError).
    { induction xs as [|x r IHr]; intros l; cbn [elements]; [discriminate|].
      destruct (nullish x).
      - destruct (elements r) as [ls|e'] eqn:Er; [discriminate|].
        intros E. injection E as <-. apply IHr. reflexivity.
      - destruct (ToString x) as [sx|ex] eqn:Ex.
        + destruct (elements r) as [ls|e'] eqn:Er; [discriminate|].
          intros E. injection E as <-. apply IHr. reflexivity.
        + intros E. injection E as <-. exact (IH x ex Ex). }
    destruct (elements xs) as [ls|e'] eqn:Es; [discriminate|].
    intros E. injection E as <-. apply Hel. reflexivity.
  - destruct (assoc "toString" fs); intros E; [|discriminate E].
    injection E as <-. reflexivity.
Qed.

(** A bound either parses or throws a [TypeError]. *)
Lemma bound_parses_or_throws (a : value) (radix : Z) (default : value) :
  (implb (truthy a) (printable a) = true /\
   exists x, (if truthy a then parseInt a radix else Returns default) = Returns x) \/
  (implb (truthy a) (printable a) = false /\
   (if truthy a then parseInt a radix else Returns default) = Throws TypeError).
Proof.
  destruct (truthy a); cbn [implb]; [|left; eauto].
  unfold printable. destruct (ToString a) as [s|e] eqn:Ea.
  - left. split; [reflexivity|]. apply parseInt_printable.
    unfold printable. rewrite Ea. reflexivity.
  - right. split; [reflexivity|].
    rewrite (ToString_throws_TypeError _ _ Ea) in Ea. apply parseInt_unprintable, Ea.
Qed.

Section Unprintable.

Context {World : Type} `{Collaborators World}.

(** X20.  A numeric field ([startIndex], [stopIndex] or [line]) that is
    truthy and has no string form, such as an object with a [toString]
    property of its own, makes [getLogEntries] throw a [TypeError] before
    anything is asked of the git service; a [getLogEntries] message with
    such a payload has the [TypeError] shown and is answered with the error
    envelope that carries it. *)
Theorem getLogEntries_unprintable_bound_throws
    (message args : value) (st : state World) :
  nullish args = false ->
  parsable args = false ->
  getLogEntries args st = (Throws TypeError, st) /\
  (get message "cmd" = Returns (VStr "getLogEntries") ->
   field message "payload" = args ->
   postMessageParser message st =
     (Returns VUndef,
      emit (PostMessage (error_envelope (field message "requestId") TypeError))
           (emit (ShowErrorMessage TypeError) st))).
Proof.
  intros Hn Hp.
  assert (T : getLogEntries args st = (Throws TypeError, st)).
  { unfold parsable, numeric_fields in Hp. cbn [forallb] in Hp.
    unfold getLogEntries, bind, lift. rewrite !(get_field args) by assumption.
    destruct (bound_parses_or_throws (field args "startIndex") 0 (VNum 0))
      as [[I1 [x1 E1]]|[I1 E1]]; rewrite E1; [|reflexivity].
    destruct (bound_parses_or_throws (field args "stopIndex") 0 (VNum 30))
      as [[I2 [x2 E2]]|[I2 E2]]; rewrite E2; [|reflexivity].
    destruct (bound_parses_or_throws (field args "line") 10 VUndef)
      as [[I3 [x3 E3]]|[I3 E3]]; rewrite E3; [|reflexivity].
    rewrite I1, I2, I3 in Hp. discriminate Hp. }
  split; [exact T|].
  intros Hc Hpay. apply get_returns in Hc as [Hm Hc].
  rewrite postMessageParser_unfold.
  eapply dispatch_throws with (name := "getLogEntries") (f := getLogEntries);
    [assumption|rewrite Hc; reflexivity|reflexivity|].
  rewrite Hpay. exact T.
Qed.

End Unprintable.

(** A start index of 5 beside a stop index that cannot be printed. *)
Lemma getLogEntries_unprintable_bound_throws_witness :
  let args := VObj [("startIndex", VNum 5); ("stopIndex", VObj [("toString", VNum 1)])] in
  let message := inbound "getLogEntries" (VStr "r1") args in
  let st := start (World := script) [] in
  getLogEntries (H := Scripted) args st = (Throws TypeError, st) /\
  (get message "cmd" = Returns (VStr "getLogEntries") ->
   field message "payload" = args ->
   postMessageParser (H := Scripted) message st =
     (Returns VUndef,
      emit (PostMessage (error_envelope (field message "requestId") TypeError))
           (emit (ShowErrorMessage TypeError) st))).
Proof.
  exact (getLogEntries_unprintable_bound_throws (H := Scripted)
           (inbound "getLogEntries" (VStr "r1")
              (VObj [("startIndex", VNum 5); ("stopIndex", VObj [("toString", VNum 1)])]))
           (VObj [("startIndex", VNum 5); ("stopIndex", VObj [("toString", VNum 1)])])
           (start []) eq_refl eq_refl).
Defined.
